(** * monitor_widget: a shallow embedding of [monitor.py]

    The program samples four host sensors (network address, CPU, RAM, GPU)
    once per tick, writes seven Tk [StringVar]s and re-arms a 1000 ms timer.

    Python objects are embedded as follows.
    - [str] is [string]; a variable holding either a number or a sentinel
      string (such as [cpu_usage]) is a [pyval].
    - [float] is the primitive binary64 type [float]; [f"{x:.1f}"] is
      [format_f 1 x], computed on the exact binary value of [x].
    - Every library call (socket, psutil, cpuinfo, GPUtil, Tk) is answered by
      an oracle of the [World]; an answer is a value or a raised exception.
      Calls are recorded, in order, in the trace of the state.
    - [try]/[except]/[finally] are combinators of a state-and-exception
      monad [M].

    What the model takes for granted.
    - An exception raised by a library call is an instance of [Exception]
      (a [gaierror], an [ImportError] or any other subclass); asynchronous
      [BaseException]s such as [KeyboardInterrupt] are not modelled.
    - [print] and [root.after] do not fail; [StringVar.set] may.
    - Tk runs one callback at a time, to completion, and a timer callback
      not before its due time; nothing else runs [update_info]. *)

From Stdlib Require Import ZArith NArith PeanoNat Bool List String Ascii Lia.
From Stdlib Require Import Floats DecimalString.
Import ListNotations.

Set Implicit Arguments.
Local Open Scope string_scope.

(** ** Rendering of floats: the format specification [.Nf] *)

Module PyFloat.

Local Open Scope Z_scope.

Definition digit_char (d : Z) : ascii := ascii_of_nat (48 + Z.to_nat d).

(** The [k] low decimal digits of [n], most significant first. *)
Fixpoint frac_digits (k : nat) (n : Z) : string :=
  match k with
  | O => EmptyString
  | S k' => frac_digits k' (n / 10) ++ String (digit_char (n mod 10)) EmptyString
  end.

Definition int_digits (n : Z) : string :=
  NilZero.string_of_uint (N.to_uint (Z.to_N n)).

(** [num / den] rounded to the nearest integer, ties to even
    ([0 <= num], [0 < den]). *)
Definition round_half_even (num den : Z) : Z :=
  let q := num / den in
  let r := num mod den in
  if 2 * r <? den then q
  else if den <? 2 * r then q + 1
  else if Z.even q then q else q + 1.

(** [m * 2^e * 10^prec], correctly rounded to an integer. *)
Definition scaled (prec : nat) (m : positive) (e : Z) : Z :=
  if 0 <=? e then Zpos m * 2 ^ e * 10 ^ Z.of_nat prec
  else round_half_even (Zpos m * 10 ^ Z.of_nat prec) (2 ^ (- e)).

Definition sign_str (s : bool) : string := if s then "-" else "".

Definition fixed_str (prec : nat) (s : bool) (n : Z) : string :=
  sign_str s ++ int_digits (n / 10 ^ Z.of_nat prec) ++
  match prec with
  | O => ""
  | _ => "." ++ frac_digits prec (n mod 10 ^ Z.of_nat prec)
  end.

(** [format(x, ".{prec}f")]: the shortest-correct conversion used by CPython
    rounds the exact binary value of [x] half-to-even at [prec] decimals;
    non-finite values print as [nan], [inf], [-inf]; the sign of a negative
    zero (or of a negative value that rounds to zero) is kept. *)
Definition format_f (prec : nat) (x : float) : string :=
  match Prim2SF x with
  | S754_nan => "nan"
  | S754_infinity s => sign_str s ++ "inf"
  | S754_zero s => fixed_str prec s 0
  | S754_finite s m e => fixed_str prec s (scaled prec m e)
  end.

(** [a / 2**30] for a Python [int] [a]: true division of integers is
    correctly rounded, and a division by a power of two only moves the
    exponent, so the quotient is [a * 2^-30] rounded to binary64.
    [None] stands for the [OverflowError] of a quotient beyond the range. *)
Definition int_truediv_2p30 (a : Z) : option float :=
  let q := SF2Prim (binary_normalize prec emax a (-30) false) in
  if is_infinity q then None else Some q.

(** Closed interval test with IEEE comparisons (false on [nan]). *)
Definition in_range (lo hi x : float) : bool :=
  (PrimFloat.leb lo x && PrimFloat.leb x hi)%bool.

Definition positive_float (x : float) : bool := PrimFloat.ltb 0 x.

End PyFloat.

Import PyFloat.

(** ** Python values and exceptions *)

(** A variable that holds a number on success and a sentinel string on
    failure ([cpu_usage], [ram_usage]). *)
Inductive pyval : Type :=
| VStr (s : string)
| VFloat (x : float).

(** The exception classes the handlers of the program tell apart:
    [socket.gaierror], [ImportError], and every other subclass of
    [Exception].  All three are caught by [except Exception]. *)
Inductive exn_class : Type := gaierror | ImportError | Exception.

Record exn : Type := mkExn { exn_cls : exn_class; exn_msg : string }.

Inductive outcome (A : Type) : Type :=
| Ret (a : A)
| Raise (e : exn).
Arguments Ret {A} a.
Arguments Raise {A} e.

Definition returned {A} (o : outcome A) : bool :=
  match o with Ret _ => true | Raise _ => false end.

(** ** The seven display variables *)

Inductive field : Type :=
| F_ip | F_cpu_name | F_cpu_usage | F_ram_total | F_ram_usage
| F_gpu_name | F_gpu_usage.

Definition field_eqb (f g : field) : bool :=
  match f, g with
  | F_ip, F_ip | F_cpu_name, F_cpu_name | F_cpu_usage, F_cpu_usage
  | F_ram_total, F_ram_total | F_ram_usage, F_ram_usage
  | F_gpu_name, F_gpu_name | F_gpu_usage, F_gpu_usage => true
  | _, _ => false
  end.

(** The [StringVar] attributes of [SystemMonitorApp]. *)
Record Display : Type := mkDisplay {
  ip_var : string;
  cpu_name_var : string;
  cpu_usage_var : string;
  ram_total_var : string;
  ram_usage_var : string;
  gpu_name_var : string;
  gpu_usage_var : string
}.

Definition get_var (f : field) (d : Display) : string :=
  match f with
  | F_ip => ip_var d
  | F_cpu_name => cpu_name_var d
  | F_cpu_usage => cpu_usage_var d
  | F_ram_total => ram_total_var d
  | F_ram_usage => ram_usage_var d
  | F_gpu_name => gpu_name_var d
  | F_gpu_usage => gpu_usage_var d
  end.

Definition set_var (f : field) (v : string) (d : Display) : Display :=
  match f with
  | F_ip => mkDisplay v (cpu_name_var d) (cpu_usage_var d) (ram_total_var d)
              (ram_usage_var d) (gpu_name_var d) (gpu_usage_var d)
  | F_cpu_name => mkDisplay (ip_var d) v (cpu_usage_var d) (ram_total_var d)
              (ram_usage_var d) (gpu_name_var d) (gpu_usage_var d)
  | F_cpu_usage => mkDisplay (ip_var d) (cpu_name_var d) v (ram_total_var d)
              (ram_usage_var d) (gpu_name_var d) (gpu_usage_var d)
  | F_ram_total => mkDisplay (ip_var d) (cpu_name_var d) (cpu_usage_var d) v
              (ram_usage_var d) (gpu_name_var d) (gpu_usage_var d)
  | F_ram_usage => mkDisplay (ip_var d) (cpu_name_var d) (cpu_usage_var d)
              (ram_total_var d) v (gpu_name_var d) (gpu_usage_var d)
  | F_gpu_name => mkDisplay (ip_var d) (cpu_name_var d) (cpu_usage_var d)
              (ram_total_var d) (ram_usage_var d) v (gpu_usage_var d)
  | F_gpu_usage => mkDisplay (ip_var d) (cpu_name_var d) (cpu_usage_var d)
              (ram_total_var d) (ram_usage_var d) (gpu_name_var d) v
  end.

(** ** Library calls, the world that answers them, and the program state *)

Inductive call : Type :=
| c_gethostname | c_gethostbyname | c_socket | c_settimeout | c_connect
| c_getsockname | c_close
| c_get_cpu_info | c_cpu_percent | c_virtual_memory | c_getGPUs
| c_set (f : field).

Definition call_eqb (a b : call) : bool :=
  match a, b with
  | c_gethostname, c_gethostname | c_gethostbyname, c_gethostbyname
  | c_socket, c_socket | c_settimeout, c_settimeout | c_connect, c_connect
  | c_getsockname, c_getsockname | c_close, c_close
  | c_get_cpu_info, c_get_cpu_info | c_cpu_percent, c_cpu_percent
  | c_virtual_memory, c_virtual_memory | c_getGPUs, c_getGPUs => true
  | c_set f, c_set g => field_eqb f g
  | _, _ => false
  end.

(** What the program does that an observer can see, oldest first.
    [EvBegin]/[EvEnd] bracket one run of [update_info] and carry the clock;
    they are the in-flight counter of the refresh loop. *)
Inductive event : Type :=
| EvCall (c : call)
| EvPrint (line : string)
| EvAfter (ms : nat)
| EvBegin (t : nat)
| EvEnd (t : nat).

(** [psutil.virtual_memory()]: the two attributes the program reads. *)
Record svmem : Type := mkSvmem { total : Z; percent : float }.

(** A [GPUtil.GPU]: the two attributes the program reads. *)
Record GPU : Type := mkGPU { name : string; load : float }.

(** The answers of the libraries.  An oracle indexed by [nat] is asked with
    the number of earlier calls of the same function, so successive calls
    (and successive ticks) may be answered differently.  [latency] is the
    time, in ms, a call takes. *)
Record World : Type := mkWorld {
  import_GPUtil : outcome unit;
  socket_gethostname : nat -> outcome string;
  socket_gethostbyname : nat -> string -> outcome string;
  socket_socket : nat -> outcome unit;
  socket_settimeout : nat -> outcome unit;
  socket_connect : nat -> outcome unit;
  socket_getsockname : nat -> outcome (string * Z);
  socket_close : nat -> outcome unit;
  cpuinfo_get_cpu_info : nat -> outcome (list (string * string));
  psutil_cpu_percent : nat -> outcome float;
  psutil_virtual_memory : nat -> outcome svmem;
  GPUtil_getGPUs : nat -> outcome (list GPU);
  StringVar_set : field -> nat -> outcome unit;
  latency : call -> nat -> nat
}.

Record St : Type := mkSt {
  trace : list event;
  vars : Display;
  timers : list nat;      (* due times of the pending [after] callbacks *)
  now : nat               (* clock, ms *)
}.

Definition calls_of (c : call) (tr : list event) : nat :=
  List.length
    (filter (fun e => match e with EvCall c' => call_eqb c c' | _ => false end) tr).

(** ** The monad of the program: state, and exceptions that unwind *)

Definition M (A : Type) : Type := St -> outcome A * St.

Definition ret {A} (a : A) : M A := fun st => (Ret a, st).

Definition raise {A} (e : exn) : M A := fun st => (Raise e, st).

Definition bind {A B} (m : M A) (k : A -> M B) : M B :=
  fun st =>
    match m st with
    | (Ret a, st') => k a st'
    | (Raise e, st') => (Raise e, st')
    end.

Notation "x <- m ;; k" := (bind m (fun x => k))
  (at level 61, m at next level, right associativity).
Notation "m ;;; k" := (bind m (fun _ => k))
  (at level 61, right associativity).

(** [try: m / except Exception as e: h e] (every exception of the model is
    an [Exception]); an exception raised by the handler propagates. *)
Definition try_except {A} (m : M A) (h : exn -> M A) : M A :=
  fun st =>
    match m st with
    | (Ret a, st') => (Ret a, st')
    | (Raise e, st') => h e st'
    end.

(** [try: m / finally: f]: [f] runs on both exits; an exception of [f]
    replaces the pending result. *)
Definition try_finally {A} (m : M A) (f : M unit) : M A :=
  fun st =>
    match m st with
    | (r, st') =>
        match f st' with
        | (Ret _, st'') => (r, st'')
        | (Raise e, st'') => (Raise e, st'')
        end
    end.

Definition log (e : event) : M unit :=
  fun st => (Ret tt, mkSt (trace st ++ [e]) (vars st) (timers st) (now st)).

Definition print (line : string) : M unit := log (EvPrint line).

(** One library call: answered by the oracle at the index of the call,
    recorded in the trace, and paid for on the clock. *)
Definition libcall {A} (w : World) (c : call) (answer : nat -> outcome A) : M A :=
  fun st =>
    let n := calls_of c (trace st) in
    (answer n,
     mkSt (trace st ++ [EvCall c]) (vars st) (timers st) (now st + latency w c n)).

(** [StringVar.set(v)]: the variable changes only when the call returns. *)
Definition StringVar_set_call (w : World) (f : field) (v : string) : M unit :=
  fun st =>
    let n := calls_of (c_set f) (trace st) in
    let tr := (trace st ++ [EvCall (c_set f)])%list in
    let t := now st + latency w (c_set f) n in
    match StringVar_set w f n with
    | Ret _ => (Ret tt, mkSt tr (set_var f v (vars st)) (timers st) t)
    | Raise e => (Raise e, mkSt tr (vars st) (timers st) t)
    end.

(** [root.after(ms, self.update_info)]: the only callback ever registered is
    [update_info], so a pending timer is its due time, [ms] after the clock
    at the moment of the call. *)
Definition after (ms : nat) : M unit :=
  fun st =>
    (Ret tt, mkSt (trace st ++ [EvAfter ms]) (vars st)
                  (timers st ++ [now st + ms]) (now st)).

(** ** Module initialisation (lines 10-20) *)

Definition module_import (w : World) : bool * list event :=
  match import_GPUtil w with
  | Ret _ => (true, [])
  | Raise e =>
      match exn_cls e with
      | ImportError =>
          (false,
           [EvPrint "GPUtil library not found. GPU information will not be available.";
            EvPrint "Install it using: pip install GPUtil"])
      | _ =>
          (false,
           [EvPrint ("An error occurred importing GPUtil: " ++ exn_msg e);
            EvPrint "GPU information might not be available."])
      end
  end.

Definition gpus_available (w : World) : bool := fst (module_import w).

(** ** Data fetching functions (lines 25-108) *)

Definition startswith (s p : string) : bool := String.prefix p s.

(** [d.get(key, default)] on a dictionary given by its items. *)
Fixpoint dict_get (d : list (string * string)) (key default : string) : string :=
  match d with
  | [] => default
  | (k, v) :: d' => if String.eqb k key then v else dict_get d' key default
  end.

Definition gethostbyname (w : World) (hostname : string) : M string :=
  libcall w c_gethostbyname (fun n => socket_gethostbyname w n hostname).

Definition get_ip_address (w : World) : M string :=
  try_except
    (hostname <- libcall w c_gethostname (socket_gethostname w) ;;
     ip_address <- gethostbyname w hostname ;;
     if startswith ip_address "127." then
       libcall w c_socket (socket_socket w) ;;;
       libcall w c_settimeout (socket_settimeout w) ;;;
       try_finally
         (try_except
            (libcall w c_connect (socket_connect w) ;;;
             sockname <- libcall w c_getsockname (socket_getsockname w) ;;
             ret (fst sockname))
            (fun _ => gethostbyname w hostname))
         (libcall w c_close (socket_close w))
     else ret ip_address)
    (fun e =>
       match exn_cls e with
       | gaierror => ret "N/A (Network Error)"
       | _ => print ("IP Address Error: " ++ exn_msg e) ;;;
              ret "N/A (Error)"
       end).

Definition get_cpu_info (w : World) : M (string * pyval) :=
  cpu_name <-
    try_except
      (info <- libcall w c_get_cpu_info (cpuinfo_get_cpu_info w) ;;
       ret (dict_get info "brand_raw" "N/A"))
      (fun e => print ("CPU Name Error: " ++ exn_msg e) ;;;
                ret "N/A (Error getting name)") ;;
  cpu_percent <-
    try_except
      (p <- libcall w c_cpu_percent (psutil_cpu_percent w) ;; ret (VFloat p))
      (fun e => print ("CPU Usage Error: " ++ exn_msg e) ;;;
                ret (VStr "N/A")) ;;
  ret (cpu_name, cpu_percent).

(** [memory.total / (1024**3)] *)
Definition bytes_to_gb (total_bytes : Z) : M float :=
  match int_truediv_2p30 total_bytes with
  | Some q => ret q
  | None => raise (mkExn Exception "integer division result too large for a float")
  end.

Definition get_ram_info (w : World) : M (string * pyval) :=
  try_except
    (memory <- libcall w c_virtual_memory (psutil_virtual_memory w) ;;
     total_ram_gb <- bytes_to_gb (total memory) ;;
     let ram_percent := percent memory in
     ret (format_f 2 total_ram_gb ++ " GB", VFloat ram_percent))
    (fun e => print ("RAM Info Error: " ++ exn_msg e) ;;;
              ret ("N/A", VStr "N/A")).

(** [gpu.load * 100] *)
Definition gpu_load_percent (gpu : GPU) : float := (load gpu * 100)%float.

Definition get_gpu_info (w : World) : M (string * string) :=
  if negb (gpus_available w) then ret ("N/A (GPUtil unavailable)", "N/A")
  else
    try_except
      (gpus <- libcall w c_getGPUs (GPUtil_getGPUs w) ;;
       match gpus with
       | [] => ret ("N/A (No supported GPU found)", "N/A")
       | gpu :: _ =>
           let gpu_name := name gpu in
           let gpu_load := gpu_load_percent gpu in
           ret (gpu_name, format_f 1 gpu_load ++ "%")
       end)
      (fun e => print ("GPU Info Error: " ++ exn_msg e) ;;;
                ret ("N/A (Error querying GPU)", "N/A")).

(** ** The application (lines 113-185) *)

(** The seven locals of [update_info] between fetching and publishing. *)
Record Snapshot : Type := mkSnapshot {
  ip : string;
  cpu_name : string;
  cpu_usage : pyval;
  ram_total : string;
  ram_usage : pyval;
  gpu_name : string;
  gpu_usage : string
}.

(** Lines 165-168. *)
Definition collect (w : World) : M Snapshot :=
  ip <- get_ip_address w ;;
  cpu <- get_cpu_info w ;;
  ram <- get_ram_info w ;;
  gpu <- get_gpu_info w ;;
  ret (mkSnapshot ip (fst cpu) (snd cpu) (fst ram) (snd ram) (fst gpu) (snd gpu)).

(** [f"{v:.1f}%" if isinstance(v, (int, float)) else v] *)
Definition render_usage (v : pyval) : string :=
  match v with
  | VFloat x => format_f 1 x ++ "%"
  | VStr s => s
  end.

(** The string each variable receives from a snapshot. *)
Definition rendered (s : Snapshot) (f : field) : string :=
  match f with
  | F_ip => ip s
  | F_cpu_name => cpu_name s
  | F_cpu_usage => render_usage (cpu_usage s)
  | F_ram_total => ram_total s
  | F_ram_usage => render_usage (ram_usage s)
  | F_gpu_name => gpu_name s
  | F_gpu_usage => gpu_usage s
  end.

(** The order of the [set] calls, lines 171-177. *)
Definition publish_order : list field :=
  [F_ip; F_cpu_name; F_cpu_usage; F_ram_total; F_ram_usage; F_gpu_name; F_gpu_usage].

Fixpoint publish_fields (w : World) (s : Snapshot) (fs : list field) : M unit :=
  match fs with
  | [] => ret tt
  | f :: fs' => StringVar_set_call w f (rendered s f) ;;; publish_fields w s fs'
  end.

(** Lines 171-177. *)
Definition publish (w : World) (s : Snapshot) : M unit :=
  publish_fields w s publish_order.

(** The body of the [try] block of [update_info], lines 165-177. *)
Definition sample_and_publish (w : World) : M unit :=
  s <- collect w ;; publish w s.

Definition update_info (w : World) : M unit :=
  try_except
    (sample_and_publish w)
    (fun e => print ("Error during update: " ++ exn_msg e)) ;;;
  after 1000.

Definition placeholders : Display :=
  mkDisplay "Fetching..." "Fetching..." "Fetching..." "Fetching..."
            "Fetching..." "Fetching..." "Fetching...".

(** One run of [update_info], bracketed by the in-flight markers. *)
Definition tick (w : World) : M unit :=
  (fun st => log (EvBegin (now st)) st) ;;;
  try_finally (update_info w) (fun st => log (EvEnd (now st)) st).

(** [SystemMonitorApp.__init__]: the variables are created with their
    placeholder, then [update_info] is called (line 159). *)
Definition SystemMonitorApp_init (w : World) : M unit :=
  (fun st => (Ret tt, mkSt (trace st) placeholders (timers st) (now st))) ;;;
  tick w.

(** State of the process when the main block starts. *)
Definition boot (w : World) : St :=
  mkSt (snd (module_import w)) placeholders [] 0.

(** ** The Tk event loop *)

Fixpoint earliest (d : nat) (l : list nat) : nat :=
  match l with
  | [] => d
  | x :: l' => earliest (Nat.min d x) l'
  end.

Fixpoint remove_first (d : nat) (l : list nat) : list nat :=
  match l with
  | [] => []
  | x :: l' => if Nat.eqb x d then l' else x :: remove_first d l'
  end.

(** One turn of [mainloop]: with no pending timer the loop stays idle;
    otherwise it sleeps until the earliest timer is due and runs its callback
    to completion.  An exception escaping a callback is reported by Tk and
    the loop goes on. *)
Definition fire (w : World) (st : St) : St :=
  match timers st with
  | [] => st
  | d :: l =>
      let due := earliest d l in
      snd (tick w (mkSt (trace st) (vars st) (remove_first due (timers st))
                        (Nat.max (now st) due)))
  end.

Fixpoint mainloop (w : World) (turns : nat) (st : St) : St :=
  match turns with
  | O => st
  | S n => mainloop w n (fire w st)
  end.

(** Lines 189-192, observed after [turns] timer callbacks. *)
Definition main (w : World) (turns : nat) : St :=
  mainloop w turns (snd (SystemMonitorApp_init w (boot w))).

(** ** Ownership of events, and frames *)

(** Which part of the system an event belongs to. *)
Inductive sensor : Type := Net | Cpu | Mem | Gpu.

Definition owner (c : call) : option sensor :=
  match c with
  | c_gethostname | c_gethostbyname | c_socket | c_settimeout | c_connect
  | c_getsockname | c_close => Some Net
  | c_get_cpu_info | c_cpu_percent => Some Cpu
  | c_virtual_memory => Some Mem
  | c_getGPUs => Some Gpu
  | c_set _ => None
  end.

(** The events a sensor may emit: its own library calls and log lines. *)
Definition sensor_event (x : sensor) (e : event) : Prop :=
  match e with
  | EvCall c => owner c = Some x
  | EvPrint _ => True
  | _ => False
  end.

(** Events of the sampling phase of a tick. *)
Definition sampling_event (e : event) : Prop := exists x, sensor_event x e.

(** [st'] is [st] after more events, all in [P]; the display and the timers
    are untouched and the clock did not go back. *)
Definition steps (P : event -> Prop) (st st' : St) : Prop :=
  exists evs,
    trace st' = (trace st ++ evs)%list /\ Forall P evs /\
    vars st' = vars st /\ timers st' = timers st /\ now st <= now st'.

Definition frame (P : event -> Prop) {A} (m : M A) : Prop :=
  forall st, steps P st (snd (m st)).

(** ** What each sensor returns, as a function of the library answers

    The definitions of this section restate the sensors as decision tables
    over the oracles, with the exception plumbing removed; the theorems
    prove that the monadic code above computes them.  [tr] is the trace at
    the moment the sensor is entered. *)

(** The two [except] clauses of [get_ip_address]. *)
Definition ip_failure (e : exn) : string :=
  match exn_cls e with
  | gaierror => "N/A (Network Error)"
  | _ => "N/A (Error)"
  end.

(** Lines 38-39: the connect trick. *)
Definition trick_attempt (w : World) (tr : list event) : outcome string :=
  match socket_connect w (calls_of c_connect tr) with
  | Raise e => Raise e
  | Ret _ =>
      match socket_getsockname w (calls_of c_getsockname tr) with
      | Raise e => Raise e
      | Ret sockname => Ret (fst sockname)
      end
  end.

(** Lines 28-45: what reaches the end of the outer [try] block. *)
Definition ip_attempt (w : World) (tr : list event) : outcome string :=
  match socket_gethostname w (calls_of c_gethostname tr) with
  | Raise e => Raise e
  | Ret hostname =>
      let n := calls_of c_gethostbyname tr in
      match socket_gethostbyname w n hostname with
      | Raise e => Raise e
      | Ret ip_address =>
          if startswith ip_address "127." then
            match socket_socket w (calls_of c_socket tr) with
            | Raise e => Raise e
            | Ret _ =>
                match socket_settimeout w (calls_of c_settimeout tr) with
                | Raise e => Raise e
                | Ret _ =>
                    let r :=
                      match trick_attempt w tr with
                      | Ret a => Ret a
                      | Raise _ => socket_gethostbyname w (S n) hostname
                      end in
                    match socket_close w (calls_of c_close tr) with
                    | Raise e => Raise e
                    | Ret _ => r
                    end
                end
            end
          else Ret ip_address
      end
  end.

Definition ip_reading (w : World) (tr : list event) : string :=
  match ip_attempt w tr with
  | Ret a => a
  | Raise e => ip_failure e
  end.

Definition cpu_name_reading (w : World) (tr : list event) : string :=
  match cpuinfo_get_cpu_info w (calls_of c_get_cpu_info tr) with
  | Ret info => dict_get info "brand_raw" "N/A"
  | Raise _ => "N/A (Error getting name)"
  end.

Definition cpu_usage_reading (w : World) (tr : list event) : pyval :=
  match psutil_cpu_percent w (calls_of c_cpu_percent tr) with
  | Ret p => VFloat p
  | Raise _ => VStr "N/A"
  end.

(** Lines 74-77: what reaches the end of the [try] block of [get_ram_info]. *)
Definition ram_attempt (w : World) (tr : list event) : option (float * float) :=
  match psutil_virtual_memory w (calls_of c_virtual_memory tr) with
  | Ret memory =>
      match int_truediv_2p30 (total memory) with
      | Some total_ram_gb => Some (total_ram_gb, percent memory)
      | None => None
      end
  | Raise _ => None
  end.

Definition ram_reading (w : World) (tr : list event) : string * pyval :=
  match ram_attempt w tr with
  | Some (total_ram_gb, ram_percent) =>
      (format_f 2 total_ram_gb ++ " GB", VFloat ram_percent)
  | None => ("N/A", VStr "N/A")
  end.

Definition gpu_reading (w : World) (tr : list event) : string * string :=
  if gpus_available w then
    match GPUtil_getGPUs w (calls_of c_getGPUs tr) with
    | Ret [] => ("N/A (No supported GPU found)", "N/A")
    | Ret (gpu :: _) => (name gpu, format_f 1 (gpu_load_percent gpu) ++ "%")
    | Raise _ => ("N/A (Error querying GPU)", "N/A")
    end
  else ("N/A (GPUtil unavailable)", "N/A").

Definition snapshot_reading (w : World) (tr : list event) : Snapshot :=
  mkSnapshot (ip_reading w tr)
             (cpu_name_reading w tr) (cpu_usage_reading w tr)
             (fst (ram_reading w tr)) (snd (ram_reading w tr))
             (fst (gpu_reading w tr)) (snd (gpu_reading w tr)).

(** The sentinel strings of the program all start with [N/A]. *)
Definition unavailable (v : pyval) : bool :=
  match v with
  | VStr s => startswith s "N/A"
  | VFloat _ => false
  end.

Definition field_value (s : Snapshot) (f : field) : pyval :=
  match f with
  | F_ip => VStr (ip s)
  | F_cpu_name => VStr (cpu_name s)
  | F_cpu_usage => cpu_usage s
  | F_ram_total => VStr (ram_total s)
  | F_ram_usage => ram_usage s
  | F_gpu_name => VStr (gpu_name s)
  | F_gpu_usage => VStr (gpu_usage s)
  end.

(** ** Vocabulary of the isolation property *)

Definition field_owner (f : field) : sensor :=
  match f with
  | F_ip => Net
  | F_cpu_name | F_cpu_usage => Cpu
  | F_ram_total | F_ram_usage => Mem
  | F_gpu_name | F_gpu_usage => Gpu
  end.

(** Two worlds answer every library call of sensor [x] alike. *)
Definition same_answers (x : sensor) (w1 w2 : World) : Prop :=
  match x with
  | Net =>
      (forall n, socket_gethostname w1 n = socket_gethostname w2 n) /\
      (forall n h, socket_gethostbyname w1 n h = socket_gethostbyname w2 n h) /\
      (forall n, socket_socket w1 n = socket_socket w2 n) /\
      (forall n, socket_settimeout w1 n = socket_settimeout w2 n) /\
      (forall n, socket_connect w1 n = socket_connect w2 n) /\
      (forall n, socket_getsockname w1 n = socket_getsockname w2 n) /\
      (forall n, socket_close w1 n = socket_close w2 n)
  | Cpu =>
      (forall n, cpuinfo_get_cpu_info w1 n = cpuinfo_get_cpu_info w2 n) /\
      (forall n, psutil_cpu_percent w1 n = psutil_cpu_percent w2 n)
  | Mem =>
      forall n, psutil_virtual_memory w1 n = psutil_virtual_memory w2 n
  | Gpu =>
      import_GPUtil w1 = import_GPUtil w2 /\
      (forall n, GPUtil_getGPUs w1 n = GPUtil_getGPUs w2 n)
  end.

(** The two worlds may differ on sensor [x] only. *)
Definition same_answers_except (x : sensor) (w1 w2 : World) : Prop :=
  forall y, y <> x -> same_answers y w1 w2.

(** An exception reaches the handler that guards field [f]. *)
Definition field_fails (w : World) (tr : list event) (f : field) : Prop :=
  match f with
  | F_ip => returned (ip_attempt w tr) = false
  | F_cpu_name =>
      returned (cpuinfo_get_cpu_info w (calls_of c_get_cpu_info tr)) = false
  | F_cpu_usage =>
      returned (psutil_cpu_percent w (calls_of c_cpu_percent tr)) = false
  | F_ram_total | F_ram_usage => ram_attempt w tr = None
  | F_gpu_name | F_gpu_usage =>
      gpus_available w = true /\
      returned (GPUtil_getGPUs w (calls_of c_getGPUs tr)) = false
  end.

(** ** Concrete worlds, used to exercise the theorems *)

Definition OSError (msg : string) : exn := mkExn Exception msg.

(** A healthy host whose name resolves to a loopback address. *)
Definition nominal : World :=
  mkWorld (Ret tt)
    (fun _ => Ret "myhost")
    (fun _ _ => Ret "127.0.1.1")
    (fun _ => Ret tt) (fun _ => Ret tt) (fun _ => Ret tt)
    (fun _ => Ret ("192.168.1.50", 54321%Z)) (fun _ => Ret tt)
    (fun _ => Ret [("brand_raw", "Test CPU")])
    (fun _ => Ret 0x1.52e147ae147aep+5%float)   (* 42.36 *)
    (fun _ => Ret (mkSvmem 2147483648 37.5))
    (fun _ => Ret [mkGPU "GPU0" 0.5; mkGPU "GPU1" 0.25])
    (fun _ _ => Ret tt)
    (fun c _ => match c with c_cpu_percent => 100 | _ => 1 end).

(** The same host with a GPU driver fault. *)
Definition gpu_faulty : World :=
  mkWorld (Ret tt)
    (socket_gethostname nominal) (socket_gethostbyname nominal)
    (socket_socket nominal) (socket_settimeout nominal)
    (socket_connect nominal) (socket_getsockname nominal)
    (socket_close nominal)
    (cpuinfo_get_cpu_info nominal) (psutil_cpu_percent nominal)
    (psutil_virtual_memory nominal)
    (fun _ => Raise (mkExn Exception "NVML driver fault"))
    (StringVar_set nominal) (latency nominal).

(** ** What one tick publishes, as a function of the library answers *)

(** The answer [StringVar.set] gives for field [f] in the tick that starts
    with trace [tr]. *)
Definition set_answer (w : World) (tr : list event) (f : field) : outcome unit :=
  StringVar_set w f (calls_of (c_set f) tr).

Definition apply_sets (s : Snapshot) (fs : list field) (d : Display) : Display :=
  fold_left (fun d f => set_var f (rendered s f) d) fs d.

(** The display after the [set] calls of [fs], stopping at the first one
    that raises, and the exception in that case. *)
Fixpoint published (w : World) (tr : list event) (s : Snapshot)
    (fs : list field) (d : Display) : Display * option exn :=
  match fs with
  | [] => (d, None)
  | f :: fs' =>
      match set_answer w tr f with
      | Ret _ => published w tr s fs' (set_var f (rendered s f) d)
      | Raise e => (d, Some e)
      end
  end.

Definition publish_event (e : event) : Prop := exists f, e = EvCall (c_set f).

(** Every [set] of the tick that starts with trace [tr] returns. *)
Definition publication_succeeds (w : World) (tr : list event) : Prop :=
  forall f, returned (set_answer w tr f) = true.

(** The display that shows snapshot [s] in full. *)
Definition display_of (s : Snapshot) : Display :=
  mkDisplay (rendered s F_ip) (rendered s F_cpu_name) (rendered s F_cpu_usage)
            (rendered s F_ram_total) (rendered s F_ram_usage)
            (rendered s F_gpu_name) (rendered s F_gpu_usage).

(** ** Observing the refresh loop on a trace *)

(** What a monitor that reads the trace from the start knows:
    - [in_flight]: runs of [update_info] begun and not ended;
    - [peak]: the largest value [in_flight] ever had;
    - [ticks]: runs begun;
    - [last_end]: the clock at the end of the latest run;
    - [armed]: [after] was called in the current run;
    - [spaced]: every run but the first began at least 1000 ms after the
      end of the one before;
    - [ordered]: in every run [after] was called once, inside the run, and
      nothing but the end of the run followed it. *)
Record Obs : Type := mkObs {
  in_flight : nat;
  peak : nat;
  ticks : nat;
  last_end : option nat;
  armed : bool;
  spaced : bool;
  ordered : bool
}.

Definition obs0 : Obs := mkObs 0 0 0 None false true true.

Definition observe (o : Obs) (e : event) : Obs :=
  match e with
  | EvBegin t =>
      mkObs (S (in_flight o)) (Nat.max (peak o) (S (in_flight o)))
            (S (ticks o)) (last_end o) (armed o)
            (spaced o &&
             match last_end o with
             | None => true
             | Some t_end => (t_end + 1000 <=? t)%nat
             end)
            (ordered o && negb (armed o))
  | EvEnd t =>
      mkObs (Nat.pred (in_flight o)) (peak o) (ticks o) (Some t) false
            (spaced o) (ordered o && armed o)
  | EvAfter ms =>
      mkObs (in_flight o) (peak o) (ticks o) (last_end o) true (spaced o)
            (ordered o && negb (armed o) && (0 <? in_flight o)%nat && (ms =? 1000)%nat)
  | EvCall _ | EvPrint _ =>
      mkObs (in_flight o) (peak o) (ticks o) (last_end o) (armed o)
            (spaced o) (ordered o && negb (armed o))
  end.

Definition observation (tr : list event) : Obs := fold_left observe tr obs0.

(** Events of the body of a tick: library calls and log lines. *)
Definition work_event (e : event) : Prop :=
  match e with
  | EvCall _ | EvPrint _ => True
  | _ => False
  end.

(** The state of the loop between two ticks: one timer is pending, due
    1000 ms after the end of the last run. *)
Definition idle (st : St) : Prop :=
  timers st = [now st + 1000] /\
  let o := observation (trace st) in
  in_flight o = 0 /\ peak o <= 1 /\ last_end o = Some (now st) /\
  armed o = false /\ spaced o = true /\ ordered o = true.

(** The line [update_info] logs when its [try] block raised. *)
Definition error_line (r : option exn) : list event :=
  match r with
  | None => []
  | Some e => [EvPrint ("Error during update: " ++ exn_msg e)]
  end.

(** ** More concrete worlds *)

(** GPUtil is not installed. *)
Definition gpu_absent : World :=
  mkWorld (Raise (mkExn ImportError "No module named 'GPUtil'"))
    (socket_gethostname nominal) (socket_gethostbyname nominal)
    (socket_socket nominal) (socket_settimeout nominal)
    (socket_connect nominal) (socket_getsockname nominal)
    (socket_close nominal)
    (cpuinfo_get_cpu_info nominal) (psutil_cpu_percent nominal)
    (psutil_virtual_memory nominal)
    (GPUtil_getGPUs nominal)
    (StringVar_set nominal) (latency nominal).

(** GPUtil is installed and finds no device. *)
Definition gpu_none : World :=
  mkWorld (Ret tt)
    (socket_gethostname nominal) (socket_gethostbyname nominal)
    (socket_socket nominal) (socket_settimeout nominal)
    (socket_connect nominal) (socket_getsockname nominal)
    (socket_close nominal)
    (cpuinfo_get_cpu_info nominal) (psutil_cpu_percent nominal)
    (psutil_virtual_memory nominal)
    (fun _ => Ret [])
    (StringVar_set nominal) (latency nominal).

(** The first device does not report its utilisation: GPUtil's
    [safeFloatCast] then yields [nan] for [load]. *)
Definition gpu_not_supported : World :=
  mkWorld (Ret tt)
    (socket_gethostname nominal) (socket_gethostbyname nominal)
    (socket_socket nominal) (socket_settimeout nominal)
    (socket_connect nominal) (socket_getsockname nominal)
    (socket_close nominal)
    (cpuinfo_get_cpu_info nominal) (psutil_cpu_percent nominal)
    (psutil_virtual_memory nominal)
    (fun _ => Ret [mkGPU "GPU0" nan])
    (StringVar_set nominal) (latency nominal).

(** The process has run out of file descriptors: [socket.socket()] raises
    an [OSError], which is not a [gaierror]. *)
Definition socket_exhausted : World :=
  mkWorld (Ret tt)
    (socket_gethostname nominal) (socket_gethostbyname nominal)
    (fun _ => Raise (OSError "[Errno 24] Too many open files"))
    (socket_settimeout nominal)
    (socket_connect nominal) (socket_getsockname nominal)
    (socket_close nominal)
    (cpuinfo_get_cpu_info nominal) (psutil_cpu_percent nominal)
    (psutil_virtual_memory nominal)
    (GPUtil_getGPUs nominal)
    (StringVar_set nominal) (latency nominal).

(** No route to the outside: [connect] fails, the name is resolved again. *)
Definition offline : World :=
  mkWorld (Ret tt)
    (socket_gethostname nominal) (socket_gethostbyname nominal)
    (socket_socket nominal) (socket_settimeout nominal)
    (fun _ => Raise (OSError "[Errno 101] Network is unreachable"))
    (socket_getsockname nominal)
    (socket_close nominal)
    (cpuinfo_get_cpu_info nominal) (psutil_cpu_percent nominal)
    (psutil_virtual_memory nominal)
    (GPUtil_getGPUs nominal)
    (StringVar_set nominal) (latency nominal).

(** The first tick goes well; in the second the CPU load has changed and
    the fourth [set] (total RAM) raises a [TclError]. *)
Definition set_faulty : World :=
  mkWorld (Ret tt)
    (socket_gethostname nominal) (socket_gethostbyname nominal)
    (socket_socket nominal) (socket_settimeout nominal)
    (socket_connect nominal) (socket_getsockname nominal)
    (socket_close nominal)
    (cpuinfo_get_cpu_info nominal)
    (fun n => match n with O => Ret 0x1.52e147ae147aep+5%float | _ => Ret 50%float end)
    (psutil_virtual_memory nominal)
    (GPUtil_getGPUs nominal)
    (fun f n =>
       match f, n with
       | F_ram_total, 1 => Raise (mkExn Exception "invalid command name")
       | _, _ => Ret tt
       end)
    (latency nominal).

(** ** Statements of the specification that the code does not meet,
       worded as the specification words them *)

(** "A tick in which an error occurs leaves every displayed field as it
    was": the [try] block of [update_info] raised, and the display after
    [update_info] is the display before. *)
Definition failed_tick_keeps_display (w : World) (st : St) : Prop :=
  forall e, fst (sample_and_publish w st) = Raise e ->
            vars (snd (update_info w st)) = vars st.

(** "Any unresolved failure yields Unavailable(network error)". *)
Definition failure_is_network_error (w : World) (st : St) : Prop :=
  forall e, ip_attempt w (trace st) = Raise e ->
            fst (get_ip_address w st) = Ret "N/A (Network Error)".

(** ** Vocabulary of the network sensor *)

(** Lines 28-30: the host name is [hostname] and it resolves to [a]. *)
Definition resolution (w : World) (tr : list event) (hostname a : string) : Prop :=
  socket_gethostname w (calls_of c_gethostname tr) = Ret hostname /\
  socket_gethostbyname w (calls_of c_gethostbyname tr) hostname = Ret a.

(** Lines 34-35: the datagram socket exists and has its timeout. *)
Definition socket_opened (w : World) (tr : list event) : Prop :=
  socket_socket w (calls_of c_socket tr) = Ret tt /\
  socket_settimeout w (calls_of c_settimeout tr) = Ret tt.

(** Line 42: the answer to the second resolution of the tick. *)
Definition refetch (w : World) (tr : list event) (hostname : string) : outcome string :=
  socket_gethostbyname w (S (calls_of c_gethostbyname tr)) hostname.

(** ** Vocabulary of the renderings *)

(** Zero or a finite number: neither [nan] nor an infinity. *)
Definition finite (x : float) : bool :=
  match Prim2SF x with
  | S754_zero _ | S754_finite _ _ _ => true
  | _ => false
  end.

(** A sign, an integer part, a point and exactly one decimal digit. *)
Definition one_decimal (s : string) : Prop :=
  exists sgn n d,
    (0 <= d < 10)%Z /\
    s = sign_str sgn ++ int_digits n ++ "." ++ String (digit_char d) "".

(** The binary64 number closest to 42.36. *)
Definition sample_42_36 : float := 0x1.52e147ae147aep+5%float.

(** ** Vocabulary of the range property *)

(** The ranges of the data model, for the tick that starts with trace [tr]:
    every number a sensor sampled successfully lies in its range. *)
Definition ranges_hold (w : World) (tr : list event) : Prop :=
  (forall x, cpu_usage_reading w tr = VFloat x -> in_range 0 100 x = true) /\
  (forall x, snd (ram_reading w tr) = VFloat x -> in_range 0 100 x = true) /\
  (forall total_ram_gb ram_percent,
      ram_attempt w tr = Some (total_ram_gb, ram_percent) ->
      positive_float total_ram_gb = true) /\
  (gpus_available w = true ->
   forall gpu others,
     GPUtil_getGPUs w (calls_of c_getGPUs tr) = Ret (gpu :: others) ->
     in_range 0 100 (gpu_load_percent gpu) = true).

(** The libraries keep to their documented ranges in that tick: [psutil]
    percentages in [0, 100], a positive amount of memory, a [GPUtil] load
    in [0, 1]. *)
Definition libraries_in_range (w : World) (tr : list event) : Prop :=
  (forall p, psutil_cpu_percent w (calls_of c_cpu_percent tr) = Ret p ->
             in_range 0 100 p = true) /\
  (forall memory,
      psutil_virtual_memory w (calls_of c_virtual_memory tr) = Ret memory ->
      in_range 0 100 (percent memory) = true /\ (0 < total memory)%Z) /\
  (forall gpu others,
      GPUtil_getGPUs w (calls_of c_getGPUs tr) = Ret (gpu :: others) ->
      in_range 0 1 (load gpu) = true).

(** ** Vocabulary of the binary64 lemmas *)

(** The mantissa of 100: [100 = M100 * 2^-46]. *)
Definition M100 : positive := 7036874417766400.

(** What rounding [P * 2^E] to binary64 yields when [P * 2^E < B * 2^E]
    and [B * 2^E] is representable at the exponent of the result. *)
Definition bra_upper_post (s : bool) (E B : Z) (r : spec_float) : Prop :=
  match r with
  | S754_zero s' => s' = s
  | S754_finite s' m e => s' = s /\ (E <= e)%Z /\ (Zpos m * 2 ^ (e - E) <= B)%Z
  | S754_infinity s' => (2 ^ (972 - E) <= B)%Z
  | S754_nan => False
  end.

(** A valid binary64 datum that is a positive number or [+inf]. *)
Definition positive_result (r : spec_float) : Prop :=
  valid_binary r = true /\
  ((exists m e, r = S754_finite false m e) \/ r = S754_infinity false).

(** ** Vocabulary of the further properties *)

(** The lines logged in a trace, oldest first. *)
Definition prints_of (tr : list event) : list string :=
  flat_map (fun e => match e with EvPrint line => [line] | _ => [] end) tr.

(** The library functions [update_info] calls exactly once in every tick. *)
Definition once_per_tick (w : World) (c : call) : bool :=
  match c with
  | c_gethostname | c_get_cpu_info | c_cpu_percent | c_virtual_memory => true
  | c_getGPUs => gpus_available w
  | _ => false
  end.

(** The trace at the moment tick [n] starts: tick 0 is run by the
    constructor, tick [n + 1] by the timer callback number [n + 1]. *)
Definition tick_start (w : World) (n : nat) : list event :=
  match n with
  | O => trace (boot w)
  | S k => trace (main w k)
  end.

(** [StringVar.set] never fails. *)
Definition sets_succeed (w : World) : Prop :=
  forall f k, returned (StringVar_set w f k) = true.

(** The dictionary has no entry under [key]. *)
Definition key_missing (d : list (string * string)) (key : string) : Prop :=
  forall v, ~ In (key, v) d.

(** The CPU load changes between the ticks. *)
Definition warming_up : World :=
  mkWorld (Ret tt)
    (socket_gethostname nominal) (socket_gethostbyname nominal)
    (socket_socket nominal) (socket_settimeout nominal)
    (socket_connect nominal) (socket_getsockname nominal)
    (socket_close nominal)
    (cpuinfo_get_cpu_info nominal)
    (fun n => match n with O => Ret sample_42_36 | _ => Ret 50%float end)
    (psutil_virtual_memory nominal)
    (GPUtil_getGPUs nominal)
    (StringVar_set nominal) (latency nominal).

(** [settimeout] is refused on the fresh socket. *)
Definition timeout_refused : World :=
  mkWorld (Ret tt)
    (socket_gethostname nominal) (socket_gethostbyname nominal)
    (socket_socket nominal)
    (fun _ => Raise (OSError "[Errno 9] Bad file descriptor"))
    (socket_connect nominal) (socket_getsockname nominal)
    (socket_close nominal)
    (cpuinfo_get_cpu_info nominal) (psutil_cpu_percent nominal)
    (psutil_virtual_memory nominal)
    (GPUtil_getGPUs nominal)
    (StringVar_set nominal) (latency nominal).

(** The trick works and [close] then fails. *)
Definition close_fails : World :=
  mkWorld (Ret tt)
    (socket_gethostname nominal) (socket_gethostbyname nominal)
    (socket_socket nominal) (socket_settimeout nominal)
    (socket_connect nominal) (socket_getsockname nominal)
    (fun _ => Raise (OSError "[Errno 5] Input/output error"))
    (cpuinfo_get_cpu_info nominal) (psutil_cpu_percent nominal)
    (psutil_virtual_memory nominal)
    (GPUtil_getGPUs nominal)
    (StringVar_set nominal) (latency nominal).

(** ** Every sensor reads its own library

    What the snapshot [s] of the tick that starts with trace [tr] holds for
    a sensor whose own library calls return, whatever the other sensors
    do: the address of the first resolution when it is not a loopback
    address, the local address of the socket when the connect trick goes
    through, the brand of the CPU, its load, the rendered memory total with
    the memory load, and the name and rendered load of the first GPU. *)
Definition own_readings (w : World) (tr : list event) (s : Snapshot) : Prop :=
  (forall hostname a,
      resolution w tr hostname a -> startswith a "127." = false ->
      ip s = a) /\
  (forall hostname a b port,
      resolution w tr hostname a -> startswith a "127." = true ->
      socket_opened w tr ->
      socket_connect w (calls_of c_connect tr) = Ret tt ->
      socket_getsockname w (calls_of c_getsockname tr) = Ret (b, port) ->
      socket_close w (calls_of c_close tr) = Ret tt ->
      ip s = b) /\
  (forall info,
      cpuinfo_get_cpu_info w (calls_of c_get_cpu_info tr) = Ret info ->
      cpu_name s = dict_get info "brand_raw" "N/A") /\
  (forall p,
      psutil_cpu_percent w (calls_of c_cpu_percent tr) = Ret p ->
      cpu_usage s = VFloat p) /\
  (forall memory total_ram_gb,
      psutil_virtual_memory w (calls_of c_virtual_memory tr) = Ret memory ->
      int_truediv_2p30 (total memory) = Some total_ram_gb ->
      ram_total s = (format_f 2 total_ram_gb ++ " GB")%string /\
      ram_usage s = VFloat (percent memory)) /\
  (forall gpu others,
      gpus_available w = true ->
      GPUtil_getGPUs w (calls_of c_getGPUs tr) = Ret (gpu :: others) ->
      gpu_name s = name gpu /\
      gpu_usage s = (format_f 1 (load gpu * 100) ++ "%")%string).

(** ** Two more statements of the specification that the code does not
       meet, worded as the specification words them *)

(** "Some fields from the new tick and some left unset": display [d] shows
    the new snapshot [s] in a field that had to change, and in another
    field still what [old] showed, which is not the new value. *)
Definition half_updated (old : Display) (s : Snapshot) (d : Display) : Prop :=
  exists f g,
    get_var f d = rendered s f /\ get_var f old <> rendered s f /\
    get_var g d = get_var g old /\ get_var g old <> rendered s g.

(** "A reader never observes a half-updated snapshot": the display after
    [update_info] is not a mix of the sampled snapshot and of the display
    before. *)
Definition never_half_updated (w : World) (st : St) : Prop :=
  forall s, fst (collect w st) = Ret s ->
            ~ half_updated (vars st) s (vars (snd (update_info w st))).


(** The fourth [set] (total RAM) raises a [TclError] in the very first
    tick, the one the constructor runs. *)
Definition set_faulty_at_start : World :=
  mkWorld (Ret tt)
    (socket_gethostname nominal) (socket_gethostbyname nominal)
    (socket_socket nominal) (socket_settimeout nominal)
    (socket_connect nominal) (socket_getsockname nominal)
    (socket_close nominal)
    (cpuinfo_get_cpu_info nominal) (psutil_cpu_percent nominal)
    (psutil_virtual_memory nominal)
    (GPUtil_getGPUs nominal)
    (fun f n =>
       match f, n with
       | F_ram_total, 0 => Raise (mkExn Exception "invalid command name")
       | _, _ => Ret tt
       end)
    (latency nominal).

(** * Properties *)

(** ** Bookkeeping: traces, counters and frames *)

Lemma calls_of_app (c : call) (a b : list event) :
  calls_of c (a ++ b) = calls_of c a + calls_of c b.
Proof.
  unfold calls_of. now rewrite filter_app, length_app.
Qed.

Lemma field_eqb_refl (f : field) : field_eqb f f = true.
Proof. now destruct f. Qed.

Lemma field_eqb_eq (f g : field) : field_eqb f g = true <-> f = g.
Proof. split; [destruct f, g; simpl; congruence | intros ->; apply field_eqb_refl]. Qed.

Lemma call_eqb_eq (a b : call) : call_eqb a b = true <-> a = b.
Proof.
  split.
  - destruct a, b; simpl; try congruence.
    intros H. apply field_eqb_eq in H. now subst.
  - intros ->. destruct b; simpl; auto using field_eqb_refl.
Qed.

Lemma steps_refl P st : steps P st st.
Proof. exists []. rewrite app_nil_r. repeat split; auto. Qed.

Lemma steps_trans P st1 st2 st3 :
  steps P st1 st2 -> steps P st2 st3 -> steps P st1 st3.
Proof.
  intros (e1 & T1 & F1 & V1 & I1 & N1) (e2 & T2 & F2 & V2 & I2 & N2).
  exists (e1 ++ e2)%list. rewrite T2, T1, app_assoc.
  repeat split; try congruence; [now apply Forall_app | lia].
Qed.

Lemma steps_weaken (P Q : event -> Prop) st st' :
  (forall e, P e -> Q e) -> steps P st st' -> steps Q st st'.
Proof.
  intros PQ (e & T & F & R). exists e. repeat split; try tauto.
  eapply Forall_impl; eauto.
Qed.

Section Frames.
Variable P : event -> Prop.

Lemma frame_ret A (a : A) : frame P (ret a).
Proof. intros st. apply steps_refl. Qed.

Lemma frame_raise A (e : exn) : frame P (@raise A e).
Proof. intros st. apply steps_refl. Qed.

Lemma frame_bind A B (m : M A) (k : A -> M B) :
  frame P m -> (forall a, frame P (k a)) -> frame P (bind m k).
Proof.
  intros Hm Hk st. unfold bind. specialize (Hm st).
  destruct (m st) as [[a | e] st1]; simpl in *; auto.
  eapply steps_trans; eauto. apply Hk.
Qed.

Lemma frame_try_except A (m : M A) (h : exn -> M A) :
  frame P m -> (forall e, frame P (h e)) -> frame P (try_except m h).
Proof.
  intros Hm Hh st. unfold try_except. specialize (Hm st).
  destruct (m st) as [[a | e] st1]; simpl in *; auto.
  eapply steps_trans; eauto. apply Hh.
Qed.

Lemma frame_try_finally A (m : M A) (f : M unit) :
  frame P m -> frame P f -> frame P (try_finally m f).
Proof.
  intros Hm Hf st. unfold try_finally. specialize (Hm st).
  destruct (m st) as [r st1]. specialize (Hf st1).
  destruct (f st1) as [[u | e] st2]; simpl in *;
    eapply steps_trans; eauto.
Qed.

Lemma frame_libcall A w c (answer : nat -> outcome A) :
  P (EvCall c) -> frame P (libcall w c answer).
Proof.
  intros Hc st. exists [EvCall c]. simpl. repeat split; auto. lia.
Qed.

Lemma frame_print line : P (EvPrint line) -> frame P (print line).
Proof.
  intros Hc st. exists [EvPrint line]. simpl. repeat split; auto.
Qed.

Lemma frame_if A (b : bool) (m1 m2 : M A) :
  frame P m1 -> frame P m2 -> frame P (if b then m1 else m2).
Proof. now destruct b. Qed.
End Frames.

Ltac frame_tac :=
  repeat first
    [ apply frame_bind; [| intros ?]
    | apply frame_try_except; [| intros ?]
    | apply frame_try_finally
    | apply frame_if
    | apply frame_ret
    | apply frame_raise
    | apply frame_libcall; simpl; auto
    | apply frame_print; simpl; auto ].

Lemma get_ip_address_frame w : frame (sensor_event Net) (get_ip_address w).
Proof.
  unfold get_ip_address, gethostbyname. frame_tac.
  destruct (exn_cls e); frame_tac.
Qed.

Lemma get_cpu_info_frame w : frame (sensor_event Cpu) (get_cpu_info w).
Proof. unfold get_cpu_info. frame_tac. Qed.

Lemma get_ram_info_frame w : frame (sensor_event Mem) (get_ram_info w).
Proof.
  unfold get_ram_info, bytes_to_gb. frame_tac.
  destruct (int_truediv_2p30 _); frame_tac.
Qed.

Lemma get_gpu_info_frame w : frame (sensor_event Gpu) (get_gpu_info w).
Proof.
  unfold get_gpu_info. frame_tac.
  destruct a; frame_tac.
Qed.

(** A sensor leaves the call counters of everything it does not own. *)
Lemma steps_calls_of (x : sensor) (c : call) st st' :
  steps (sensor_event x) st st' -> owner c <> Some x ->
  calls_of c (trace st') = calls_of c (trace st).
Proof.
  intros (evs & T & F & _) Hc. rewrite T, calls_of_app.
  enough (calls_of c evs = 0) by lia.
  clear T. induction F as [| e evs He _ IH]; auto.
  change (e :: evs) with ([e] ++ evs)%list. rewrite calls_of_app, IH.
  destruct e; simpl in *; auto.
  unfold calls_of; simpl.
  destruct (call_eqb c c0) eqn:E; auto.
  apply call_eqb_eq in E. subst. contradiction.
Qed.

(** ** The sensors compute their decision tables *)

Ltac run_monad :=
  unfold bind, try_except, try_finally, ret, raise, print, log, libcall,
    gethostbyname; simpl.

Ltac count_calls :=
  repeat rewrite calls_of_app; simpl;
  repeat rewrite Nat.add_0_r; repeat rewrite Nat.add_1_r.

Lemma get_ip_address_result w st :
  fst (get_ip_address w st) = Ret (ip_reading w (trace st)).
Proof.
  unfold get_ip_address, ip_reading, ip_attempt, trick_attempt.
  run_monad.
  destruct (socket_gethostname w _) as [hostname | e]; simpl;
    [| now destruct e as [[] ?]].
  count_calls.
  destruct (socket_gethostbyname w _ hostname) as [a | e]; simpl;
    [| now destruct e as [[] ?]].
  destruct (startswith a "127."); simpl; auto.
  count_calls.
  destruct (socket_socket w _) as [[] | e]; simpl;
    [| now destruct e as [[] ?]].
  count_calls.
  destruct (socket_settimeout w _) as [[] | e]; simpl;
    [| now destruct e as [[] ?]].
  count_calls.
  destruct (socket_connect w _) as [[] | e1]; simpl; count_calls.
  - destruct (socket_getsockname w _) as [sockname | e2]; simpl; count_calls.
    + destruct (socket_close w _) as [[] | e]; simpl; auto.
      now destruct e as [[] ?].
    + destruct (socket_gethostbyname w _ hostname) as [a2 | e3]; simpl;
        count_calls;
        (destruct (socket_close w _) as [[] | e]; simpl;
         [| now destruct e as [[] ?]]); auto.
      now destruct e3 as [[] ?].
  - destruct (socket_gethostbyname w _ hostname) as [a2 | e3]; simpl;
      count_calls;
      (destruct (socket_close w _) as [[] | e]; simpl;
       [| now destruct e as [[] ?]]); auto.
    now destruct e3 as [[] ?].
Qed.

Lemma get_cpu_info_result w st :
  fst (get_cpu_info w st) =
  Ret (cpu_name_reading w (trace st), cpu_usage_reading w (trace st)).
Proof.
  unfold get_cpu_info, cpu_name_reading, cpu_usage_reading. run_monad.
  destruct (cpuinfo_get_cpu_info w _) as [info | e]; simpl; count_calls;
    destruct (psutil_cpu_percent w _) as [p | e']; reflexivity.
Qed.

Lemma get_ram_info_result w st :
  fst (get_ram_info w st) = Ret (ram_reading w (trace st)).
Proof.
  unfold get_ram_info, ram_reading, ram_attempt, bytes_to_gb. run_monad.
  destruct (psutil_virtual_memory w _) as [memory | e]; simpl; auto.
  destruct (int_truediv_2p30 (total memory)); reflexivity.
Qed.

Lemma get_gpu_info_result w st :
  fst (get_gpu_info w st) = Ret (gpu_reading w (trace st)).
Proof.
  unfold get_gpu_info, gpu_reading.
  destruct (gpus_available w); simpl; auto. run_monad.
  destruct (GPUtil_getGPUs w _) as [[| gpu gpus] | e]; reflexivity.
Qed.

(** The four readings of one tick are taken at the call counters of the
    start of the tick: no sensor moves the counters of another. *)
Lemma reading_frame_ip w (x : sensor) st st' :
  steps (sensor_event x) st st' -> x <> Net ->
  ip_reading w (trace st') = ip_reading w (trace st).
Proof.
  intros H Hx. unfold ip_reading, ip_attempt, trick_attempt.
  rewrite !(steps_calls_of _ H); simpl; congruence.
Qed.

Lemma reading_frame_cpu w (x : sensor) st st' :
  steps (sensor_event x) st st' -> x <> Cpu ->
  cpu_name_reading w (trace st') = cpu_name_reading w (trace st) /\
  cpu_usage_reading w (trace st') = cpu_usage_reading w (trace st).
Proof.
  intros H Hx. unfold cpu_name_reading, cpu_usage_reading.
  rewrite !(steps_calls_of _ H); simpl; try congruence. auto.
Qed.

Lemma reading_frame_ram w (x : sensor) st st' :
  steps (sensor_event x) st st' -> x <> Mem ->
  ram_reading w (trace st') = ram_reading w (trace st).
Proof.
  intros H Hx. unfold ram_reading, ram_attempt.
  rewrite !(steps_calls_of _ H); simpl; congruence.
Qed.

Lemma reading_frame_gpu w (x : sensor) st st' :
  steps (sensor_event x) st st' -> x <> Gpu ->
  gpu_reading w (trace st') = gpu_reading w (trace st).
Proof.
  intros H Hx. unfold gpu_reading.
  rewrite !(steps_calls_of _ H); simpl; congruence.
Qed.

Lemma sensor_is_sampling x st st' :
  steps (sensor_event x) st st' -> steps sampling_event st st'.
Proof. apply steps_weaken. intros e He. now exists x. Qed.

(** Lines 165-168 never raise and assemble the seven readings. *)
Lemma collect_result w st :
  exists st',
    collect w st = (Ret (snapshot_reading w (trace st)), st') /\
    steps sampling_event st st'.
Proof.
  unfold collect, bind at 1.
  pose proof (get_ip_address_result w st) as R1.
  pose proof (get_ip_address_frame w st) as F1.
  destruct (get_ip_address w st) as [o1 st1]; simpl in R1, F1. subst o1.
  unfold bind at 1.
  pose proof (get_cpu_info_result w st1) as R2.
  pose proof (get_cpu_info_frame w st1) as F2.
  destruct (get_cpu_info w st1) as [o2 st2]; simpl in R2, F2. subst o2.
  unfold bind at 1.
  pose proof (get_ram_info_result w st2) as R3.
  pose proof (get_ram_info_frame w st2) as F3.
  destruct (get_ram_info w st2) as [o3 st3]; simpl in R3, F3. subst o3.
  unfold bind at 1.
  pose proof (get_gpu_info_result w st3) as R4.
  pose proof (get_gpu_info_frame w st3) as F4.
  destruct (get_gpu_info w st3) as [o4 st4]; simpl in R4, F4. subst o4.
  unfold ret. exists st4. split.
  - unfold snapshot_reading. do 2 f_equal.
    destruct (reading_frame_cpu w F1) as [C1 C2]; [discriminate |].
    assert (G3 : gpu_reading w (trace st3) = gpu_reading w (trace st)).
    { rewrite (reading_frame_gpu w F3), (reading_frame_gpu w F2),
        (reading_frame_gpu w F1); auto; discriminate. }
    assert (M2 : ram_reading w (trace st2) = ram_reading w (trace st)).
    { rewrite (reading_frame_ram w F2), (reading_frame_ram w F1);
        auto; discriminate. }
    rewrite C1, C2, M2, G3. reflexivity.
  - apply sensor_is_sampling in F1, F2, F3, F4.
    eauto using steps_trans.
Qed.

(** ** Isolation of the sensors: the lemmas of C1 *)

Lemma ip_reading_same w1 w2 tr :
  same_answers Net w1 w2 -> ip_reading w1 tr = ip_reading w2 tr.
Proof.
  intros (H1 & H2 & H3 & H4 & H5 & H6 & H7).
  unfold ip_reading, ip_attempt, trick_attempt.
  rewrite H1. destruct (socket_gethostname w2 _) as [hostname | e]; auto.
  rewrite !H2. destruct (socket_gethostbyname w2 _ hostname); auto.
  destruct (startswith _ _); auto.
  rewrite H3, H4, H5, H6, H7. reflexivity.
Qed.

Lemma cpu_reading_same w1 w2 tr :
  same_answers Cpu w1 w2 ->
  cpu_name_reading w1 tr = cpu_name_reading w2 tr /\
  cpu_usage_reading w1 tr = cpu_usage_reading w2 tr.
Proof.
  intros (H1 & H2). unfold cpu_name_reading, cpu_usage_reading.
  now rewrite H1, H2.
Qed.

Lemma ram_reading_same w1 w2 tr :
  same_answers Mem w1 w2 -> ram_reading w1 tr = ram_reading w2 tr.
Proof.
  intros H. unfold ram_reading, ram_attempt. now rewrite (H _).
Qed.

Lemma gpu_reading_same w1 w2 tr :
  same_answers Gpu w1 w2 -> gpu_reading w1 tr = gpu_reading w2 tr.
Proof.
  intros (H1 & H2). unfold gpu_reading, gpus_available, module_import.
  now rewrite H1, H2.
Qed.

Lemma field_value_same w1 w2 tr f :
  same_answers (field_owner f) w1 w2 ->
  field_value (snapshot_reading w1 tr) f =
  field_value (snapshot_reading w2 tr) f.
Proof.
  intros H. destruct f; simpl in *.
  - now rewrite (ip_reading_same tr H).
  - now destruct (cpu_reading_same tr H) as [-> _].
  - now destruct (cpu_reading_same tr H) as [_ ->].
  - now rewrite (ram_reading_same tr H).
  - now rewrite (ram_reading_same tr H).
  - now rewrite (gpu_reading_same tr H).
  - now rewrite (gpu_reading_same tr H).
Qed.

Lemma failure_is_unavailable w tr f :
  field_fails w tr f ->
  unavailable (field_value (snapshot_reading w tr) f) = true.
Proof.
  destruct f; simpl.
  - unfold ip_reading. destruct (ip_attempt w tr) as [a | [[] m]];
      simpl; congruence.
  - unfold cpu_name_reading.
    destruct (cpuinfo_get_cpu_info w _); simpl; congruence.
  - unfold cpu_usage_reading.
    destruct (psutil_cpu_percent w _); simpl; congruence.
  - unfold ram_reading. now intros ->.
  - unfold ram_reading. now intros ->.
  - unfold gpu_reading. intros [-> H].
    destruct (GPUtil_getGPUs w _); simpl in *; congruence.
  - unfold gpu_reading. intros [-> H].
    destruct (GPUtil_getGPUs w _); simpl in *; congruence.
Qed.

(** The decision tables give every sensor the answers of its own library. *)
Lemma own_readings_holds w tr : own_readings w tr (snapshot_reading w tr).
Proof.
  unfold own_readings, snapshot_reading.
  cbn [ip cpu_name cpu_usage ram_total ram_usage gpu_name gpu_usage].
  split; [| split; [| split; [| split; [| split]]]].
  - intros hostname a [H1 H2] Hl.
    unfold ip_reading, ip_attempt. rewrite H1, H2, Hl. reflexivity.
  - intros hostname a b port [H1 H2] Hl [H3 H4] Hc Hn Hcl.
    unfold ip_reading, ip_attempt, trick_attempt.
    rewrite H1, H2, Hl, H3, H4, Hc, Hn, Hcl. reflexivity.
  - intros info H. unfold cpu_name_reading. now rewrite H.
  - intros p H. unfold cpu_usage_reading. now rewrite H.
  - intros memory g H1 H2. unfold ram_reading, ram_attempt.
    rewrite H1, H2. split; reflexivity.
  - intros gpu others Hg H. unfold gpu_reading. rewrite Hg, H.
    split; reflexivity.
Qed.

(** ** Publication: the seven [set] calls *)

Lemma get_set_same f v d : get_var f (set_var f v d) = v.
Proof. now destruct f. Qed.

Lemma get_set_other f g v d : f <> g -> get_var g (set_var f v d) = get_var g d.
Proof. destruct f, g; simpl; congruence. Qed.

Lemma display_ext d1 d2 :
  (forall f, get_var f d1 = get_var f d2) -> d1 = d2.
Proof.
  intros H. destruct d1, d2.
  pose proof (H F_ip). pose proof (H F_cpu_name). pose proof (H F_cpu_usage).
  pose proof (H F_ram_total). pose proof (H F_ram_usage).
  pose proof (H F_gpu_name). pose proof (H F_gpu_usage).
  simpl in *. congruence.
Qed.

Lemma NoDup_app_disjoint (A : Type) (l1 l2 : list A) (x : A) :
  NoDup (l1 ++ l2) -> In x l1 -> In x l2 -> False.
Proof.
  induction l1 as [| a l1 IH]; simpl; [tauto |].
  intros ND [-> | H1] H2; inversion ND as [| ? ? Hn ND']; subst.
  - apply Hn, in_or_app. now right.
  - now apply IH.
Qed.

Lemma publish_order_NoDup : NoDup publish_order.
Proof.
  unfold publish_order.
  repeat (constructor; [simpl; intuition discriminate |]). constructor.
Qed.

Lemma publish_order_complete f : In f publish_order.
Proof. destruct f; simpl; tauto. Qed.

Lemma apply_sets_other s fs : forall d g,
  ~ In g fs -> get_var g (apply_sets s fs d) = get_var g d.
Proof.
  induction fs as [| f fs IH]; intros d g Hg; simpl; auto.
  unfold apply_sets in *. simpl. rewrite IH by (simpl in Hg; tauto).
  apply get_set_other. simpl in Hg. intuition.
Qed.

Lemma apply_sets_done s fs : NoDup fs -> forall d g,
  In g fs -> get_var g (apply_sets s fs d) = rendered s g.
Proof.
  induction 1 as [| f fs Hf Hnd IH]; intros d g Hg; [contradiction |].
  unfold apply_sets in *. simpl. destruct Hg as [-> | Hg]; auto.
  fold (apply_sets s fs (set_var g (rendered s g) d)).
  rewrite apply_sets_other by assumption. apply get_set_same.
Qed.

Lemma apply_sets_all s d : apply_sets s publish_order d = display_of s.
Proof. reflexivity. Qed.

(** All the [set] calls before the first failing one take effect. *)
Lemma published_stops w tr s done f rest e : forall d,
  (forall g, In g done -> returned (set_answer w tr g) = true) ->
  set_answer w tr f = Raise e ->
  published w tr s (done ++ f :: rest) d = (apply_sets s done d, Some e).
Proof.
  induction done as [| g done IH]; intros d Hok Hf; simpl.
  - now rewrite Hf.
  - pose proof (Hok g (or_introl eq_refl)) as Hg.
    destruct (set_answer w tr g); [| discriminate].
    apply IH; auto. intros; apply Hok; now right.
Qed.

Lemma published_completes w tr s fs : forall d,
  (forall g, In g fs -> returned (set_answer w tr g) = true) ->
  published w tr s fs d = (apply_sets s fs d, None).
Proof.
  induction fs as [| g fs IH]; intros d Hok; simpl; auto.
  pose proof (Hok g (or_introl eq_refl)) as Hg.
  destruct (set_answer w tr g); [| discriminate].
  apply IH. intros; apply Hok; now right.
Qed.

Lemma published_ext w tr1 tr2 s fs : forall d,
  (forall g, In g fs -> calls_of (c_set g) tr1 = calls_of (c_set g) tr2) ->
  published w tr1 s fs d = published w tr2 s fs d.
Proof.
  induction fs as [| f fs IH]; intros d H; simpl; auto.
  unfold set_answer. rewrite (H f (or_introl eq_refl)).
  destruct (StringVar_set w f _); auto.
  apply IH. intros; apply H; now right.
Qed.

(** [publish_fields] computes [published], emits [set] events only and does
    not touch the timers. *)
Lemma publish_fields_result w s fs : NoDup fs -> forall st,
  exists st' evs,
    publish_fields w s fs st =
      (match snd (published w (trace st) s fs (vars st)) with
       | None => Ret tt
       | Some e => Raise e
       end, st') /\
    vars st' = fst (published w (trace st) s fs (vars st)) /\
    trace st' = (trace st ++ evs)%list /\ Forall publish_event evs /\
    timers st' = timers st /\ now st <= now st'.
Proof.
  induction 1 as [| f fs Hf Hnd IH]; intros st.
  - exists st, []. simpl. rewrite app_nil_r. unfold ret. repeat split; auto.
  - simpl. unfold bind, StringVar_set_call, set_answer.
    destruct (StringVar_set w f _) as [[] | e] eqn:E.
    + match goal with |- context [publish_fields w s fs ?st1] =>
        destruct (IH st1) as (st' & evs & R & V & T & F & I & N)
      end.
      simpl in *.
      assert (X : forall d,
        published w (trace st ++ [EvCall (c_set f)]) s fs d =
        published w (trace st) s fs d).
      { intros d. apply published_ext. intros g Hg.
        rewrite calls_of_app. unfold calls_of at 2. simpl.
        destruct (field_eqb g f) eqn:Eg; [| simpl; lia].
        apply field_eqb_eq in Eg. subst. contradiction. }
      rewrite X in R, V.
      exists st', (EvCall (c_set f) :: evs). rewrite R, V, T, I.
      repeat split; auto.
      * now rewrite <- app_assoc.
      * constructor; auto. now exists f.
      * lia.
    + eexists; exists [EvCall (c_set f)]. simpl.
      repeat split; auto.
      * constructor; auto. now exists f.
      * simpl. lia.
Qed.

Lemma sampling_keeps_set_counters st st' f :
  steps sampling_event st st' ->
  calls_of (c_set f) (trace st') = calls_of (c_set f) (trace st).
Proof.
  intros (evs & T & F & _). rewrite T, calls_of_app.
  enough (calls_of (c_set f) evs = 0) by lia.
  clear T. induction F as [| e evs [x He] _ IH]; auto.
  change (e :: evs) with ([e] ++ evs)%list. rewrite calls_of_app, IH.
  destruct e; simpl in *; auto.
  destruct c; simpl in *; auto; discriminate.
Qed.

(** ** One run of [update_info] *)

Lemma update_info_result w st :
  let s := snapshot_reading w (trace st) in
  let p := published w (trace st) s publish_order (vars st) in
  exists st1 st' evs1 evs2,
    collect w st = (Ret s, st1) /\
    trace st1 = (trace st ++ evs1)%list /\ vars st1 = vars st /\
    update_info w st = (Ret tt, st') /\
    vars st' = fst p /\
    trace st' =
      (trace st ++ evs1 ++ evs2 ++ error_line (snd p) ++ [EvAfter 1000])%list /\
    Forall sampling_event evs1 /\ Forall publish_event evs2 /\
    fst (sample_and_publish w st) =
      match snd p with None => Ret tt | Some e => Raise e end /\
    timers st' = (timers st ++ [now st' + 1000])%list /\
    now st <= now st'.
Proof.
  intros s p. unfold update_info, sample_and_publish, publish.
  destruct (collect_result w st) as (st1 & C & S1).
  destruct (publish_fields_result w s publish_order_NoDup st1)
    as (st2 & evs2 & R & V & T & F & I & N).
  assert (X : published w (trace st1) s publish_order (vars st1) = p).
  { destruct S1 as (evs1 & T1 & F1 & V1 & I1 & N1). rewrite V1.
    apply published_ext. intros g _.
    apply sampling_keeps_set_counters.
    exists evs1. repeat split; auto. }
  rewrite X in R, V.
  destruct S1 as (evs1 & T1 & F1 & V1 & I1 & N1).
  subst s. unfold bind, try_except. rewrite C. cbv beta iota. rewrite R.
  destruct (snd p) as [e |] eqn:Ep; simpl.
  - exists st1; eexists; exists evs1, evs2. unfold print, log, after; simpl.
    repeat split; auto; simpl.
    + rewrite T, T1. now rewrite <- !app_assoc.
    + congruence.
    + lia.
  - exists st1; eexists; exists evs1, evs2. unfold after; simpl.
    repeat split; auto; simpl.
    + rewrite T, T1. now rewrite <- !app_assoc.
    + congruence.
    + lia.
Qed.

(** ** One tick, seen from the loop *)

Lemma calls_of_marker c tr e :
  ~ work_event e -> calls_of c (tr ++ [e]) = calls_of c tr.
Proof.
  intros H. rewrite calls_of_app.
  destruct e; simpl in *; try tauto; unfold calls_of; simpl; lia.
Qed.

Lemma snapshot_reading_ext w tr1 tr2 :
  (forall c, calls_of c tr1 = calls_of c tr2) ->
  snapshot_reading w tr1 = snapshot_reading w tr2.
Proof.
  intros H.
  unfold snapshot_reading, ip_reading, ip_attempt, trick_attempt,
    cpu_name_reading, cpu_usage_reading, ram_reading, ram_attempt,
    gpu_reading.
  now rewrite !H.
Qed.

Lemma Forall_work_app (a b : list event) :
  Forall work_event a -> Forall work_event b -> Forall work_event (a ++ b).
Proof. intros; now apply Forall_app. Qed.

Lemma sampling_is_work evs : Forall sampling_event evs -> Forall work_event evs.
Proof.
  apply Forall_impl. intros e [x He]. destruct e; simpl in *; tauto.
Qed.

Lemma publish_is_work evs : Forall publish_event evs -> Forall work_event evs.
Proof. apply Forall_impl. intros e [f ->]. exact I. Qed.

Lemma error_line_is_work r : Forall work_event (error_line r).
Proof. destruct r; simpl; repeat constructor. Qed.

(** A run of [update_info] from [st], bracketed: it returns, emits work
    events and then its single [after], and leaves one more timer, due
    1000 ms after its end. *)
Lemma tick_result w st :
  let s := snapshot_reading w (trace st) in
  let p := published w (trace st) s publish_order (vars st) in
  exists st' evs,
    tick w st = (Ret tt, st') /\
    vars st' = fst p /\
    trace st' =
      (trace st ++ [EvBegin (now st)] ++ evs ++
       [EvAfter 1000; EvEnd (now st')])%list /\
    Forall work_event evs /\
    timers st' = (timers st ++ [now st' + 1000])%list /\
    now st <= now st'.
Proof.
  intros s p. unfold tick, bind at 1, log at 1.
  set (st0 := mkSt (trace st ++ [EvBegin (now st)]) (vars st) (timers st) (now st)).
  destruct (update_info_result w st0)
    as (st1' & st1 & evs1 & evs2 & _ & _ & _ & U & V & T & F1 & F2 & _ & I & N).
  assert (E : forall c, calls_of c (trace st0) = calls_of c (trace st)).
  { intros c. apply calls_of_marker. simpl. tauto. }
  assert (Es : snapshot_reading w (trace st0) = s)
    by (apply snapshot_reading_ext, E).
  assert (Ep : published w (trace st0) (snapshot_reading w (trace st0))
                 publish_order (vars st0) = p).
  { rewrite Es. apply published_ext. intros; apply E. }
  rewrite Ep in V, T.
  unfold try_finally. rewrite U. unfold log. simpl.
  eexists; exists (evs1 ++ evs2 ++ error_line (snd p))%list.
  repeat split; simpl; auto.
  - rewrite T. simpl. rewrite <- ?app_assoc. simpl.
    now rewrite <- ?app_assoc.
  - auto using Forall_work_app, sampling_is_work, publish_is_work,
      error_line_is_work.
Qed.

(** ** The loop invariant *)

Lemma observation_app tr evs :
  observation (tr ++ evs) = fold_left observe evs (observation tr).
Proof. apply fold_left_app. Qed.

Lemma observe_work evs : Forall work_event evs -> forall o,
  armed o = false -> fold_left observe evs o = o.
Proof.
  induction 1 as [| e evs He _ IH]; intros o Ha; simpl; auto.
  assert (E : observe o e = o).
  { destruct o as [i p t l a sp od]. simpl in Ha. subst a.
    destruct e; simpl in He; try tauto; simpl; now rewrite andb_true_r. }
  rewrite E. now apply IH.
Qed.

Lemma observe_tick evs t0 t1 o :
  Forall work_event evs -> armed o = false -> ordered o = true ->
  fold_left observe
    ([EvBegin t0] ++ evs ++ [EvAfter 1000; EvEnd t1])%list o =
  mkObs (in_flight o) (Nat.max (peak o) (S (in_flight o))) (S (ticks o))
        (Some t1) false
        (spaced o &&
         match last_end o with
         | None => true
         | Some t_end => (t_end + 1000 <=? t0)%nat
         end)
        true.
Proof.
  intros F Ha Ho. rewrite !fold_left_app.
  cbn [fold_left app]. rewrite (observe_work F).
  - destruct o as [i p t l a sp od]. simpl in *. subst. reflexivity.
  - destruct o; simpl in *; assumption.
Qed.

Lemma module_import_prints w : Forall work_event (snd (module_import w)).
Proof.
  unfold module_import.
  destruct (import_GPUtil w) as [| [[] m]]; simpl; repeat constructor.
Qed.

Lemma boot_observation w : observation (trace (boot w)) = obs0.
Proof.
  unfold observation. apply observe_work;
    [apply module_import_prints | reflexivity].
Qed.

(** The constructor leaves the loop idle, after exactly one tick. *)
Lemma init_idle w :
  idle (main w 0) /\ ticks (observation (trace (main w 0))) = 1.
Proof.
  unfold main, mainloop, SystemMonitorApp_init, bind.
  set (st0 := mkSt (trace (boot w)) placeholders (timers (boot w)) (now (boot w))).
  destruct (tick_result w st0) as (st' & evs & E & V & T & F & I & N).
  rewrite E. simpl snd. unfold idle. rewrite I, T, observation_app.
  change (trace st0) with (trace (boot w)). rewrite boot_observation.
  rewrite (@observe_tick evs 0 (now st') _ F); auto.
  simpl. repeat split; auto.
Qed.

(** One turn of the loop from an idle state: the tick starts when the
    pending timer is due and the loop is idle again afterwards. *)
Lemma fire_idle w st :
  idle st ->
  idle (fire w st) /\
  ticks (observation (trace (fire w st))) =
    S (ticks (observation (trace st))).
Proof.
  intros (Ht & Hi & Hp & Hl & Ha & Hs & Ho).
  unfold fire. rewrite Ht. cbn [earliest remove_first].
  rewrite Nat.eqb_refl.
  set (st0 := mkSt (trace st) (vars st) [] (Nat.max (now st) (now st + 1000))).
  destruct (tick_result w st0) as (st' & evs & E & V & T & F & I & N).
  rewrite E. simpl snd. unfold idle. rewrite I, T, observation_app.
  change (trace st0) with (trace st).
  rewrite (@observe_tick evs (now st0) (now st') _ F); auto.
  rewrite Hi, Hl, Hs. simpl.
  repeat split; auto.
  - lia.
  - apply Nat.leb_le. lia.
Qed.

Lemma mainloop_idle w turns : forall st,
  idle st ->
  idle (mainloop w turns st) /\
  ticks (observation (trace (mainloop w turns st))) =
    turns + ticks (observation (trace st)).
Proof.
  induction turns as [| n IH]; intros st H; simpl; auto.
  destruct (fire_idle w H) as [H' E].
  destruct (IH _ H') as [H'' E'].
  split; auto. rewrite E', E. lia.
Qed.

(** ** C2: ticks do not overlap *)

(** C2.  After the constructor and any number of timer callbacks: at no
    point of the execution were two runs of [update_info] in flight
    ([peak <= 1]), no run is in flight now, every run called [after] exactly
    once and as its last action ([ordered]), every run but the first began
    at least 1000 ms after the end of the previous one, however long that
    one took ([spaced]), and exactly one timer is pending, due 1000 ms after
    the end of the last run. *)
Theorem ticks_never_overlap (w : World) (turns : nat) :
  let st := main w turns in
  let o := observation (trace st) in
  peak o <= 1 /\ in_flight o = 0 /\ ticks o = S turns /\
  ordered o = true /\ spaced o = true /\
  last_end o = Some (now st) /\ timers st = [now st + 1000].
Proof.
  destruct (init_idle w) as [H0 T0].
  destruct (mainloop_idle w turns H0) as [(Ht & Hi & Hp & Hl & Ha & Hs & Ho) T].
  change (mainloop w turns (main w 0)) with (main w turns) in *. cbv zeta.
  repeat split; auto. rewrite T, T0. lia.
Qed.

(** ** C3: the snapshot is whole before it is shown *)

(** The specification's wording of C3 fails: in the first tick of
    [set_faulty_at_start] the fourth [set] raises, so the reader sees the
    address, the CPU name and the CPU load of the new snapshot beside four
    fields that are still unset. *)
Lemma never_half_updated_counterexample :
  ~ never_half_updated set_faulty_at_start (boot set_faulty_at_start) /\
  vars (snd (update_info set_faulty_at_start (boot set_faulty_at_start))) =
    mkDisplay "192.168.1.50" "Test CPU" "42.4%"
              "Fetching..." "Fetching..." "Fetching..." "Fetching...".
Proof.
  split; [| vm_compute; reflexivity].
  intros H.
  apply (H (snapshot_reading set_faulty_at_start
              (trace (boot set_faulty_at_start))));
    [vm_compute; reflexivity |].
  exists F_ip, F_ram_total.
  repeat split; vm_compute; try reflexivity; discriminate.
Qed.

(** C3, amended.  In every tick the seven values are all assembled while
    the display is still untouched: sampling never raises and returns the
    complete [Snapshot] of the tick, in which a sensor whose library calls
    return holds their answers and a field whose sensor caught an exception
    holds an [N/A] sentinel; every sampling event of the tick precedes
    every [set].  When the seven [set] calls return, the display the reader
    sees after the tick is that snapshot in full, no field left over from
    before.  When the [set] of field [f] raises, the fields set before it
    show the new snapshot and [f] and every later field show what they
    showed before the tick. *)
Theorem snapshot_fully_formed (w : World) (st : St) :
  let s := snapshot_reading w (trace st) in
  exists st1 st' evs1 evs2,
    collect w st = (Ret s, st1) /\ vars st1 = vars st /\
    trace st1 = (trace st ++ evs1)%list /\ Forall sampling_event evs1 /\
    own_readings w (trace st) s /\
    (forall f, field_fails w (trace st) f ->
               unavailable (field_value s f) = true) /\
    update_info w st = (Ret tt, st') /\
    Forall publish_event evs2 /\
    (publication_succeeds w (trace st) ->
     trace st' = (trace st1 ++ evs2 ++ [EvAfter 1000])%list /\
     vars st' = display_of s /\
     (forall f, get_var f (vars st') = rendered s f)) /\
    (forall (done rest : list field) (f : field) (e : exn),
        publish_order = (done ++ f :: rest)%list ->
        (forall g, In g done -> returned (set_answer w (trace st) g) = true) ->
        set_answer w (trace st) f = Raise e ->
        (forall g, In g done -> get_var g (vars st') = rendered s g) /\
        (forall g, In g (f :: rest) ->
                   get_var g (vars st') = get_var g (vars st))).
Proof.
  intros s.
  destruct (update_info_result w st)
    as (st1 & st' & evs1 & evs2 & C & T1 & V1 & U & V & T & F1 & F2 & _ & I & N).
  exists st1, st', evs1, evs2.
  split; [exact C |]. split; [exact V1 |]. split; [exact T1 |].
  split; [exact F1 |]. split; [apply own_readings_holds |].
  split; [intros f; apply failure_is_unavailable |].
  split; [exact U |]. split; [exact F2 |]. fold s in V, T. split.
  - intros Hok.
    rewrite (published_completes w (trace st) s publish_order (vars st)) in V, T
      by (intros; apply Hok).
    cbn [fst snd error_line app] in V, T. rewrite apply_sets_all in V.
    split; [| split].
    + rewrite T, T1. now rewrite <- !app_assoc.
    + exact V.
    + intros f. rewrite V. now destruct f.
  - intros done rest f e Hsplit Hdone Hf.
    pose proof publish_order_NoDup as ND. rewrite Hsplit in ND, V.
    rewrite (published_stops w (trace st) s done f rest (vars st) Hdone Hf) in V.
    cbn [fst] in V. split; intros g Hg; rewrite V.
    + apply apply_sets_done; auto. now apply NoDup_app_remove_r in ND.
    + apply apply_sets_other.
      intros Hin. exact (NoDup_app_disjoint _ _ _ ND Hin Hg).
Qed.

Lemma snapshot_fully_formed_witness :
  publication_succeeds nominal (trace (boot nominal)) /\
  vars (snd (update_info nominal (boot nominal))) =
    mkDisplay "192.168.1.50" "Test CPU" "42.4%" "2.00 GB" "37.5%" "GPU0" "50.0%".
Proof.
  assert (H : publication_succeeds nominal (trace (boot nominal)))
    by (intros f; reflexivity).
  split; [exact H |].
  pose proof (snapshot_fully_formed nominal (boot nominal)) as X.
  cbv zeta in X.
  destruct X as (st1 & st' & evs1 & evs2 & _ & _ & _ & _ & _ & _ & U & _ & P & _).
  destruct (P H) as (_ & V & _).
  rewrite U. cbn [snd]. rewrite V. reflexivity.
Defined.

(** ** C4: a tick that fails while publishing *)

(** The specification's wording of C4 fails: in the second tick of
    [set_faulty] the fourth [set] raises, the error is caught, and the
    first three variables already show the new values. *)
Lemma failed_tick_keeps_display_counterexample :
  ~ failed_tick_keeps_display set_faulty (main set_faulty 0).
Proof.
  intros H.
  assert (E : fst (sample_and_publish set_faulty (main set_faulty 0)) =
              Raise (mkExn Exception "invalid command name"))
    by (vm_compute; reflexivity).
  specialize (H _ E). vm_compute in H. discriminate H.
Qed.

(** C4, amended.  When the [set] of field [f] raises after the [set]s of
    the fields [done]: [update_info] does not raise, logs the error, the
    fields of [done] show the new snapshot, [f] and every later field keep
    the value they had, and the next tick is scheduled 1000 ms after the
    end of this one. *)
Theorem failed_tick_is_partial (w : World) (st : St)
    (done rest : list field) (f : field) (e : exn) :
  publish_order = (done ++ f :: rest)%list ->
  (forall g, In g done -> returned (set_answer w (trace st) g) = true) ->
  set_answer w (trace st) f = Raise e ->
  let s := snapshot_reading w (trace st) in
  exists st' evs,
    update_info w st = (Ret tt, st') /\
    trace st' =
      (trace st ++ evs ++
       [EvPrint ("Error during update: " ++ exn_msg e); EvAfter 1000])%list /\
    Forall work_event evs /\
    (forall g, In g done -> get_var g (vars st') = rendered s g) /\
    (forall g, In g (f :: rest) -> get_var g (vars st') = get_var g (vars st)) /\
    timers st' = (timers st ++ [now st' + 1000])%list.
Proof.
  intros Hsplit Hdone Hf s.
  destruct (update_info_result w st)
    as (st1 & st' & evs1 & evs2 & _ & _ & _ & U & V & T & F1 & F2 & _ & I & _).
  fold s in V, T. rewrite Hsplit in V, T.
  rewrite (published_stops w (trace st) s done f rest (vars st) Hdone Hf) in V, T.
  cbn [fst snd error_line] in V, T.
  pose proof publish_order_NoDup as ND. rewrite Hsplit in ND.
  exists st', (evs1 ++ evs2)%list. repeat split; auto.
  - rewrite T. now rewrite <- !app_assoc.
  - auto using Forall_work_app, sampling_is_work, publish_is_work.
  - intros g Hg. rewrite V. apply apply_sets_done; auto.
    now apply NoDup_app_remove_r in ND.
  - intros g Hg. rewrite V. apply apply_sets_other.
    intros Hin. revert g Hin Hg. clear - ND.
    induction done as [| d done IH]; simpl; [tauto |].
    inversion ND as [| ? ? Hd ND']; subst.
    intros g [-> | Hin] Hg; [| now apply (IH ND' g)].
    apply Hd. apply in_or_app. right. exact Hg.
Qed.

Lemma failed_tick_is_partial_witness :
  let w := set_faulty in
  let st := main set_faulty 0 in
  let s := snapshot_reading w (trace st) in
  exists st' evs,
    update_info w st = (Ret tt, st') /\
    trace st' =
      (trace st ++ evs ++
       [EvPrint ("Error during update: " ++ "invalid command name");
        EvAfter 1000])%list /\
    Forall work_event evs /\
    (forall g, In g [F_ip; F_cpu_name; F_cpu_usage] ->
               get_var g (vars st') = rendered s g) /\
    (forall g, In g [F_ram_total; F_ram_usage; F_gpu_name; F_gpu_usage] ->
               get_var g (vars st') = get_var g (vars st)) /\
    timers st' = (timers st ++ [now st' + 1000])%list.
Proof.
  intros w st.
  apply (@failed_tick_is_partial w st [F_ip; F_cpu_name; F_cpu_usage]
           [F_ram_usage; F_gpu_name; F_gpu_usage] F_ram_total
           (mkExn Exception "invalid command name")).
  - reflexivity.
  - intros g [<- | [<- | [<- | []]]]; vm_compute; reflexivity.
  - vm_compute; reflexivity.
Defined.

(** ** C10: the first sample is taken by the constructor *)




(** ** C5: the network sensor *)

Lemma get_ip_address_no_socket w st hostname a :
  resolution w (trace st) hostname a -> startswith a "127." = false ->
  calls_of c_socket (trace (snd (get_ip_address w st))) =
  calls_of c_socket (trace st).
Proof.
  intros [H1 H2] Hl. unfold get_ip_address. run_monad.
  rewrite H1. simpl. count_calls. rewrite H2. simpl. rewrite Hl. simpl.
  count_calls. reflexivity.
Qed.

Lemma get_ip_address_closes w st hostname a :
  resolution w (trace st) hostname a -> startswith a "127." = true ->
  socket_opened w (trace st) ->
  calls_of c_close (trace (snd (get_ip_address w st))) =
  S (calls_of c_close (trace st)).
Proof.
  intros [H1 H2] Hl [H3 H4]. unfold get_ip_address. run_monad.
  rewrite H1. simpl. count_calls. rewrite H2. simpl. rewrite Hl. simpl.
  count_calls. rewrite H3. simpl. count_calls. rewrite H4. simpl.
  count_calls.
  destruct (socket_connect w _) as [[] | e1]; simpl; count_calls.
  - destruct (socket_getsockname w _) as [sockname | e2]; simpl; count_calls.
    + destruct (socket_close w _) as [[] | [[] m]]; simpl; count_calls;
        reflexivity.
    + destruct (socket_gethostbyname w (S _) hostname) as [a2 | [[] m3]]; simpl;
        count_calls;
        destruct (socket_close w _) as [[] | [[] m]]; simpl; count_calls;
        reflexivity.
  - destruct (socket_gethostbyname w (S _) hostname) as [a2 | [[] m3]]; simpl;
      count_calls;
      destruct (socket_close w _) as [[] | [[] m]]; simpl; count_calls;
      reflexivity.
Qed.

(** The specification's wording of C5 fails: when the socket cannot be
    created the sensor returns ["N/A (Error)"], not the network-error
    value. *)
Lemma failure_is_network_error_counterexample :
  ~ failure_is_network_error socket_exhausted (boot socket_exhausted).
Proof.
  intros H.
  specialize (H (OSError "[Errno 24] Too many open files") eq_refl).
  vm_compute in H. discriminate H.
Qed.

(** C5, amended.  [get_ip_address] never raises and returns [ip_reading]:
    - (a) the host name is resolved; an address outside [127.] is returned
      as it is and no socket is opened;
    - (b) for a loopback address a datagram socket is opened; once it is
      open and has its timeout it is closed exactly once, whatever happens
      next; if the connect trick succeeds the local address of the socket
      is returned;
    - (c) if the trick fails the name is resolved again and that second
      answer is returned;
    - an exception that reaches the handlers gives ["N/A (Network Error)"]
      when it is a [gaierror] and ["N/A (Error)"] otherwise. *)
Theorem network_sensor_algorithm (w : World) (st : St) :
  let tr := trace st in
  exists st',
    get_ip_address w st = (Ret (ip_reading w tr), st') /\
    (forall hostname a,
        resolution w tr hostname a -> startswith a "127." = false ->
        ip_reading w tr = a /\
        calls_of c_socket (trace st') = calls_of c_socket tr) /\
    (forall hostname a,
        resolution w tr hostname a -> startswith a "127." = true ->
        socket_opened w tr ->
        calls_of c_close (trace st') = S (calls_of c_close tr)) /\
    (forall hostname a b,
        resolution w tr hostname a -> startswith a "127." = true ->
        socket_opened w tr ->
        socket_close w (calls_of c_close tr) = Ret tt ->
        trick_attempt w tr = Ret b ->
        ip_reading w tr = b) /\
    (forall hostname a e b,
        resolution w tr hostname a -> startswith a "127." = true ->
        socket_opened w tr ->
        socket_close w (calls_of c_close tr) = Ret tt ->
        trick_attempt w tr = Raise e ->
        refetch w tr hostname = Ret b ->
        ip_reading w tr = b) /\
    (forall e,
        ip_attempt w tr = Raise e ->
        ip_reading w tr =
          match exn_cls e with
          | gaierror => "N/A (Network Error)"
          | _ => "N/A (Error)"
          end).
Proof.
  intros tr.
  pose proof (get_ip_address_result w st) as R.
  pose proof (@get_ip_address_no_socket w st) as NS.
  pose proof (@get_ip_address_closes w st) as CL.
  destruct (get_ip_address w st) as [o st']. simpl in R, NS, CL. subst o.
  fold tr in NS, CL. exists st'.
  split; [reflexivity |].
  split; [| split; [| split; [| split]]].
  - intros hostname a Hr Hl. split; [| eapply NS; eauto].
    destruct Hr as [H1 H2]. unfold ip_reading, ip_attempt.
    now rewrite H1, H2, Hl.
  - intros hostname a Hr Hl Ho. eapply CL; eauto.
  - intros hostname a b [H1 H2] Hl [H3 H4] Hc Ht.
    unfold ip_reading, ip_attempt.
    now rewrite H1, H2, Hl, H3, H4, Ht, Hc.
  - intros hostname a e b [H1 H2] Hl [H3 H4] Hc Ht Hre.
    unfold ip_reading, ip_attempt. unfold refetch in Hre.
    now rewrite H1, H2, Hl, H3, H4, Ht, Hc, Hre.
  - intros e He. unfold ip_reading. now rewrite He.
Qed.

(** The algorithm on a host without a route: the trick fails, the socket is
    closed, and the re-resolved loopback address is returned. *)
Lemma network_sensor_algorithm_witness :
  resolution offline (trace (boot offline)) "myhost" "127.0.1.1" /\
  socket_opened offline (trace (boot offline)) /\
  trick_attempt offline (trace (boot offline)) =
    Raise (OSError "[Errno 101] Network is unreachable") /\
  refetch offline (trace (boot offline)) "myhost" = Ret "127.0.1.1" /\
  exists st',
    get_ip_address offline (boot offline) = (Ret "127.0.1.1", st') /\
    calls_of c_close (trace st') = 1.
Proof.
  assert (Hr : resolution offline (trace (boot offline)) "myhost" "127.0.1.1")
    by (split; reflexivity).
  assert (Ho : socket_opened offline (trace (boot offline)))
    by (split; reflexivity).
  repeat (split; [first [exact Hr | exact Ho | reflexivity] |]).
  destruct (network_sensor_algorithm offline (boot offline))
    as (st' & E & _ & Hclose & _ & Hre & _).
  exists st'. split.
  - rewrite E.
    rewrite (Hre "myhost" "127.0.1.1"
               (OSError "[Errno 101] Network is unreachable") "127.0.1.1");
      auto; reflexivity.
  - exact (Hclose "myhost" "127.0.1.1" Hr eq_refl Ho).
Defined.

(** ** C6 and C7: the GPU sensor *)

Lemma publish_events_no_query evs :
  Forall publish_event evs -> calls_of c_getGPUs evs = 0.
Proof.
  induction 1 as [| e evs [f ->] _ IH]; [reflexivity | exact IH].
Qed.

Lemma collect_without_gpu w st :
  gpus_available w = false ->
  calls_of c_getGPUs (trace (snd (collect w st))) =
  calls_of c_getGPUs (trace st).
Proof.
  intros Hg. unfold collect, bind.
  pose proof (get_ip_address_result w st) as R1.
  pose proof (get_ip_address_frame w st) as F1.
  destruct (get_ip_address w st) as [o1 st1]; simpl in R1, F1. subst o1.
  pose proof (get_cpu_info_result w st1) as R2.
  pose proof (get_cpu_info_frame w st1) as F2.
  destruct (get_cpu_info w st1) as [o2 st2]; simpl in R2, F2. subst o2.
  pose proof (get_ram_info_result w st2) as R3.
  pose proof (get_ram_info_frame w st2) as F3.
  destruct (get_ram_info w st2) as [o3 st3]; simpl in R3, F3. subst o3.
  unfold get_gpu_info. rewrite Hg. simpl.
  rewrite (steps_calls_of c_getGPUs F3), (steps_calls_of c_getGPUs F2),
    (steps_calls_of c_getGPUs F1); simpl; congruence.
Qed.

Lemma update_info_without_gpu w st :
  gpus_available w = false ->
  calls_of c_getGPUs (trace (snd (update_info w st))) =
  calls_of c_getGPUs (trace st).
Proof.
  intros Hg. pose proof (@collect_without_gpu w st Hg) as C.
  destruct (update_info_result w st)
    as (st1 & st' & evs1 & evs2 & E & T1 & _ & U & _ & T & _ & F2 & _).
  rewrite E in C. simpl in C. rewrite U. simpl.
  rewrite T, !app_assoc, <- T1, <- !app_assoc, !calls_of_app, C.
  rewrite (publish_events_no_query F2).
  destruct (snd (published _ _ _ _ _)); unfold calls_of; simpl; lia.
Qed.

Lemma tick_without_gpu w st :
  gpus_available w = false ->
  calls_of c_getGPUs (trace (snd (tick w st))) = calls_of c_getGPUs (trace st).
Proof.
  intros Hg. unfold tick, bind, try_finally, log. simpl.
  match goal with |- context [update_info w ?s] =>
    pose proof (@update_info_without_gpu w s Hg) as U;
    destruct (update_info w s) as [[[] | e] st']
  end; simpl in *; rewrite calls_of_app, U, calls_of_app;
    unfold calls_of; simpl; lia.
Qed.

Lemma main_without_gpu w turns :
  gpus_available w = false -> calls_of c_getGPUs (trace (main w turns)) = 0.
Proof.
  intros Hg. unfold main.
  assert (H0 : calls_of c_getGPUs
                 (trace (snd (SystemMonitorApp_init w (boot w)))) = 0).
  { unfold SystemMonitorApp_init, bind. rewrite (@tick_without_gpu w _ Hg).
    simpl. clear. unfold module_import.
    destruct (import_GPUtil w) as [| [[] m]]; reflexivity. }
  revert H0. generalize (snd (SystemMonitorApp_init w (boot w))).
  induction turns as [| n IH]; intros st H; simpl; auto.
  apply IH. unfold fire. destruct (timers st); auto.
  now rewrite (@tick_without_gpu w _ Hg).
Qed.

(** C6.  While the start-up flag is false, a call of the GPU sensor returns
    the unavailable pair and leaves the state as it found it: no library
    call, no log line, no time spent; and in a whole execution, the
    constructor and any number of ticks, [GPUtil.getGPUs] is never called. *)
Theorem gpu_absent_never_queried (w : World) :
  gpus_available w = false ->
  (forall st,
      get_gpu_info w st = (Ret ("N/A (GPUtil unavailable)", "N/A"), st) /\
      unavailable (VStr "N/A (GPUtil unavailable)") = true /\
      unavailable (VStr "N/A") = true) /\
  (forall turns, calls_of c_getGPUs (trace (main w turns)) = 0).
Proof.
  intros Hg. split.
  - intros st. unfold get_gpu_info. rewrite Hg. repeat split.
  - intros turns. now apply main_without_gpu.
Qed.

Lemma gpu_absent_never_queried_witness :
  gpus_available gpu_absent = false /\
  gpu_name_var (vars (main gpu_absent 3)) = "N/A (GPUtil unavailable)" /\
  gpu_usage_var (vars (main gpu_absent 3)) = "N/A" /\
  calls_of c_getGPUs (trace (main gpu_absent 3)) = 0.
Proof.
  assert (H : gpus_available gpu_absent = false) by reflexivity.
  split; [exact H |].
  split; [vm_compute; reflexivity |].
  split; [vm_compute; reflexivity |].
  exact (proj2 (gpu_absent_never_queried gpu_absent H) 3).
Defined.

Lemma format_f_one_decimal (x : float) :
  finite x = true -> one_decimal (format_f 1 x).
Proof.
  unfold finite, format_f.
  destruct (Prim2SF x) as [s | s | | s m e]; try discriminate; intros _.
  - exists s, 0%Z, 0%Z. split; [lia | reflexivity].
  - exists s, (scaled 1 m e / 10)%Z, ((scaled 1 m e mod 10) mod 10)%Z.
    split.
    + apply Z.mod_pos_bound. lia.
    + reflexivity.
Qed.

(** C7.  With the flag true the sensor asks [GPUtil.getGPUs] once and never
    raises: an empty list gives the no-device pair; a non-empty list gives
    the name of its first element and that element's [load * 100] in the
    format [.1f] (one decimal digit whenever the product is finite)
    followed by [%], whatever the other elements are; an exception of the
    query is logged and gives the query-error pair. *)
Theorem gpu_present (w : World) (st : St) :
  gpus_available w = true ->
  exists r st',
    get_gpu_info w st = (Ret r, st') /\
    calls_of c_getGPUs (trace st') = S (calls_of c_getGPUs (trace st)) /\
    match GPUtil_getGPUs w (calls_of c_getGPUs (trace st)) with
    | Ret [] => r = ("N/A (No supported GPU found)", "N/A")
    | Ret (gpu :: others) =>
        r = (name gpu, format_f 1 (load gpu * 100) ++ "%") /\
        (finite (load gpu * 100) = true ->
         one_decimal (format_f 1 (load gpu * 100)))
    | Raise e =>
        r = ("N/A (Error querying GPU)", "N/A") /\
        trace st' =
          (trace st ++ [EvCall c_getGPUs;
                        EvPrint ("GPU Info Error: " ++ exn_msg e)])%list
    end.
Proof.
  intros Hg. unfold get_gpu_info. rewrite Hg. run_monad.
  destruct (GPUtil_getGPUs w _) as [[| gpu others] | e]; simpl;
    eexists; eexists; (split; [reflexivity |]); simpl; count_calls;
    (split; [reflexivity |]).
  - reflexivity.
  - split; [reflexivity | apply format_f_one_decimal].
  - split; [reflexivity |]. now rewrite <- app_assoc.
Qed.

Lemma gpu_present_witness :
  gpus_available nominal = true /\
  exists st',
    get_gpu_info nominal (boot nominal) = (Ret ("GPU0", "50.0%"), st') /\
    calls_of c_getGPUs (trace st') = 1.
Proof.
  assert (H : gpus_available nominal = true) by reflexivity.
  split; [exact H |].
  destruct (@gpu_present nominal (boot nominal) H) as (r & st' & E & C & R).
  exists st'. simpl in R. destruct R as [-> _]. split; [exact E | exact C].
Defined.

(** ** C9: the two renderings *)

(** C9.  When [psutil] reports 2147483648 bytes of memory and a CPU load of
    42.36, and the tick is published, the display shows ["2.00 GB"] and
    ["42.4%"]. *)
Theorem formatting_round_trip (w : World) (st : St) (memory : svmem) :
  psutil_virtual_memory w (calls_of c_virtual_memory (trace st)) = Ret memory ->
  total memory = 2147483648%Z ->
  psutil_cpu_percent w (calls_of c_cpu_percent (trace st)) = Ret sample_42_36 ->
  publication_succeeds w (trace st) ->
  exists st',
    update_info w st = (Ret tt, st') /\
    ram_total_var (vars st') = "2.00 GB" /\
    cpu_usage_var (vars st') = "42.4%".
Proof.
  intros Hm Ht Hc Hok.
  destruct (update_info_result w st)
    as (st1 & st' & evs1 & evs2 & _ & _ & _ & U & V & _).
  rewrite (published_completes w (trace st) _ publish_order (vars st)) in V
    by (intros; apply Hok).
  cbn [fst] in V. rewrite apply_sets_all in V.
  exists st'. split; [exact U |]. rewrite V.
  unfold display_of, rendered, snapshot_reading; cbn [ram_total_var cpu_usage_var
    ram_total cpu_usage].
  unfold ram_reading, ram_attempt, cpu_usage_reading.
  rewrite Hm, Ht, Hc. split; vm_compute; reflexivity.
Qed.

Lemma formatting_round_trip_witness :
  psutil_virtual_memory nominal
    (calls_of c_virtual_memory (trace (boot nominal))) =
    Ret (mkSvmem 2147483648 37.5) /\
  psutil_cpu_percent nominal (calls_of c_cpu_percent (trace (boot nominal))) =
    Ret sample_42_36 /\
  publication_succeeds nominal (trace (boot nominal)) /\
  exists st',
    update_info nominal (boot nominal) = (Ret tt, st') /\
    ram_total_var (vars st') = "2.00 GB" /\
    cpu_usage_var (vars st') = "42.4%".
Proof.
  assert (H : publication_succeeds nominal (trace (boot nominal)))
    by (intros f; reflexivity).
  repeat (split; [first [exact H | reflexivity] |]).
  exact (@formatting_round_trip nominal (boot nominal)
           (mkSvmem 2147483648 37.5) eq_refl eq_refl eq_refl H).
Defined.

(** ** Binary64 arithmetic: bounds on rounded products *)

Section Binary64.
Local Open Scope Z_scope.
Local Unset Implicit Arguments.

Lemma digits2_size p : digits2_pos p = Pos.size p.
Proof. induction p; simpl; congruence. Qed.

Lemma digits_upper p : Zpos p < 2 ^ Zpos (digits2_pos p).
Proof.
  rewrite digits2_size. pose proof (Pos.size_gt p) as H.
  apply Pos2Z.pos_lt_pos in H. now rewrite Pos2Z.inj_pow in H.
Qed.

Lemma digits_lower p : 2 ^ (Zpos (digits2_pos p) - 1) <= Zpos p.
Proof.
  rewrite digits2_size. pose proof (Pos.size_le p) as H.
  apply Pos2Z.pos_le_pos in H. rewrite Pos2Z.inj_pow in H.
  replace (Zpos (Pos.size p)) with (Zpos (Pos.size p) - 1 + 1) in H by lia.
  rewrite Z.pow_add_r in H by lia. lia.
Qed.

Lemma shr_1_m r : 0 <= shr_m r -> shr_m (shr_1 r) = shr_m r / 2.
Proof.
  destruct r as [m r s]. simpl. intros Hm.
  destruct m as [| [p | p |] |]; cbn [shr_1 shr_m] in *;
    try reflexivity; try lia.
  - apply (Z.div_unique _ 2 _ 1); lia.
  - apply (Z.div_unique _ 2 _ 0); lia.
Qed.

Lemma pow2_xO p : 2 ^ Zpos p~0 = 2 ^ Zpos p * 2 ^ Zpos p.
Proof. rewrite <- Z.pow_add_r by lia. f_equal. lia. Qed.

Lemma pow2_xI p : 2 ^ Zpos p~1 = 2 * (2 ^ Zpos p * 2 ^ Zpos p).
Proof.
  rewrite <- Z.pow_add_r, <- Z.pow_succ_r by lia. f_equal. lia.
Qed.

Lemma iter_pos_shr_m p : forall r,
  0 <= shr_m r -> shr_m (iter_pos shr_1 p r) = shr_m r / 2 ^ Zpos p.
Proof.
  assert (N : forall r, 0 <= shr_m r -> 0 <= shr_m (shr_1 r)).
  { intros r H. rewrite shr_1_m by assumption. apply Z.div_pos; lia. }
  induction p as [p IH | p IH |]; intros r Hr; simpl iter_pos.
  - assert (H1 : 0 <= shr_m (shr_1 r)) by auto.
    assert (H2 : 0 <= shr_m (iter_pos shr_1 p (shr_1 r))).
    { rewrite IH by assumption. apply Z.div_pos; lia. }
    rewrite IH, IH, shr_1_m by assumption.
    rewrite !Z.div_div by lia. now rewrite pow2_xI.
  - assert (H2 : 0 <= shr_m (iter_pos shr_1 p r)).
    { rewrite IH by assumption. apply Z.div_pos; lia. }
    rewrite IH, IH by assumption.
    rewrite !Z.div_div by lia. now rewrite pow2_xO.
  - rewrite shr_1_m by assumption. reflexivity.
Qed.

Lemma shr_spec m l e n :
  0 <= m ->
  (n <= 0 -> shr (shr_record_of_loc m l) e n = (shr_record_of_loc m l, e)) /\
  (0 < n -> shr_m (fst (shr (shr_record_of_loc m l) e n)) = m / 2 ^ n /\
            snd (shr (shr_record_of_loc m l) e n) = e + n).
Proof.
  intros Hm. assert (Hr : shr_m (shr_record_of_loc m l) = m)
    by (destruct l as [| []]; reflexivity).
  split; intros Hn; destruct n as [| p | p]; try lia; try reflexivity.
  simpl. rewrite iter_pos_shr_m, Hr by (rewrite Hr; assumption). auto.
Qed.

Lemma rne_bounds m l :
  m <= round_nearest_even m l <= m + 1.
Proof.
  destruct l as [| []]; simpl; try lia. destruct (Z.even m); lia.
Qed.

Lemma shr_m_of_loc m l : shr_m (shr_record_of_loc m l) = m.
Proof. destruct l as [| []]; reflexivity. Qed.

Lemma loc_of_exact m : loc_of_shr_record (shr_record_of_loc m loc_Exact) = loc_Exact.
Proof. reflexivity. Qed.


Lemma binary_round_aux_upper s (P : positive) E B :
  let n := SpecFloat.fexp prec emax (Zpos (digits2_pos P) + E) - E in
  Zpos P < B -> (0 < n -> B mod 2 ^ n = 0) ->
  bra_upper_post s E B (binary_round_aux prec emax s (Zpos P) E loc_Exact).
Proof.
  intros n HP HB. unfold binary_round_aux, shr_fexp.
  change (Zdigits2 (Zpos P)) with (Zpos (digits2_pos P)). fold n.
  destruct (shr_spec (Zpos P) loc_Exact E n) as [S0 S1]; [lia |].
  destruct (shr (shr_record_of_loc (Zpos P) loc_Exact) E n) as [mrs' e'] eqn:E1.
  set (m2 := round_nearest_even (shr_m mrs') (loc_of_shr_record mrs')).
  assert (H2 : 0 <= m2 /\ E <= e' /\ m2 * 2 ^ (e' - E) <= B).
  { destruct (Z_le_gt_dec n 0) as [Hn | Hn].
    - specialize (S0 Hn). inversion S0; subst mrs' e'. subst m2. simpl.
      rewrite Z.sub_diag. simpl. lia.
    - destruct S1 as [M1 M2]; [lia |]. simpl in M1, M2. subst e'.
      pose proof (rne_bounds (shr_m mrs') (loc_of_shr_record mrs')) as Hb.
      fold m2 in Hb. rewrite M1 in Hb.
      replace (E + n - E) with n by lia.
      assert (Hpow : 0 < 2 ^ n) by (apply Z.pow_pos_nonneg; lia).
      assert (Hq : 0 <= Zpos P / 2 ^ n) by (apply Z.div_pos; lia).
      specialize (HB ltac:(lia)).
      apply Z.div_exact in HB; [| lia].
      assert (Zpos P / 2 ^ n < B / 2 ^ n).
      { apply Z.div_lt_upper_bound; lia. }
      repeat split; try lia. nia. }
  destruct H2 as (Hm2 & He' & Hbound).
  set (n2 := SpecFloat.fexp prec emax (Zdigits2 m2 + e') - e').
  destruct (shr_spec m2 loc_Exact e' n2) as [T0 T1]; [lia |].
  destruct (shr (shr_record_of_loc m2 loc_Exact) e' n2) as [mrs'' e''] eqn:E2.
  assert (H3 : 0 <= shr_m mrs'' /\ e' <= e'' /\
               shr_m mrs'' * 2 ^ (e'' - E) <= B).
  { destruct (Z_le_gt_dec n2 0) as [Hn | Hn].
    - specialize (T0 Hn). inversion T0; subst mrs'' e''. simpl. lia.
    - destruct T1 as [M1 M2]; [lia |]. simpl in M1, M2. subst e''.
      rewrite M1.
      assert (Hpow : 0 < 2 ^ n2) by (apply Z.pow_pos_nonneg; lia).
      assert (Hq : 0 <= m2 / 2 ^ n2) by (apply Z.div_pos; lia).
      replace (e' + n2 - E) with (n2 + (e' - E)) by lia.
      rewrite Z.pow_add_r by lia.
      pose proof (Z.mul_div_le m2 (2 ^ n2) Hpow).
      assert (0 < 2 ^ (e' - E)) by (apply Z.pow_pos_nonneg; lia).
      repeat split; try lia. nia. }
  destruct H3 as (Hm3 & He'' & Hb3).
  destruct (shr_m mrs'') as [| m3 | m3]; cbn [bra_upper_post]; try lia; auto.
  change (emax - prec) with 971.
  destruct (Z.leb_spec e'' 971); cbn [bra_upper_post].
  - repeat split; auto; lia.
  - assert (2 ^ (972 - E) <= 2 ^ (e'' - E)) by (apply Z.pow_le_mono_r; lia).
    assert (0 < 2 ^ (e'' - E)) by (apply Z.pow_pos_nonneg; lia).
    nia.
Qed.

Lemma digits_le p k : 0 <= k -> Zpos p < 2 ^ k -> Zpos (digits2_pos p) <= k.
Proof.
  intros Hk H. pose proof (digits_lower p) as L.
  assert (2 ^ (Zpos (digits2_pos p) - 1) < 2 ^ k) by lia.
  apply Z.pow_lt_mono_r_iff in H0; lia.
Qed.



Lemma canonical_digits m e :
  bounded prec emax m e = true ->
  SpecFloat.fexp prec emax (Zpos (digits2_pos m) + e) = e /\ e <= 971.
Proof.
  unfold bounded, canonical_mantissa. intros H.
  apply andb_prop in H. destruct H as [H1 H2].
  apply Z.eqb_eq in H1. apply Z.leb_le in H2. auto.
Qed.

Lemma fexp_eq z : SpecFloat.fexp prec emax z = Z.max (z - 53) (-1074).
Proof. reflexivity. Qed.


Lemma sf0 : Prim2SF 0 = S754_zero false.
Proof. reflexivity. Qed.
Lemma sf1 : Prim2SF 1 = S754_finite false 4503599627370496 (-52).
Proof. reflexivity. Qed.
Lemma sf100 : Prim2SF 100 = S754_finite false M100 (-46).
Proof. reflexivity. Qed.
Lemma M100_lt : Zpos M100 < 9007199254740992.
Proof. reflexivity. Qed.
Lemma M100_eq : Zpos M100 = 25 * 2 ^ 48.
Proof. reflexivity. Qed.
Lemma pow2_53 : 2 ^ 53 = 9007199254740992.
Proof. reflexivity. Qed.
Lemma pow2_52 : 2 ^ 52 = 4503599627370496.
Proof. reflexivity. Qed.

Lemma mul100_one :
  (SFleb (S754_zero false)
     (SF64mul (S754_finite false 4503599627370496 (-52))
              (S754_finite false M100 (-46))) &&
   SFleb (SF64mul (S754_finite false 4503599627370496 (-52))
                  (S754_finite false M100 (-46)))
         (S754_finite false M100 (-46)))%bool = true.
Proof. reflexivity. Qed.

Lemma product_divisible m e :
  Zpos m < 2 ^ 53 -> e < -52 ->
  let E := e + -46 in
  let n := SpecFloat.fexp prec emax (Zpos (digits2_pos (m * M100)) + E) - E in
  0 < n -> (Zpos M100 * 2 ^ (- e)) mod 2 ^ n = 0.
Proof.
  intros Hm He E n Hn. unfold n in *. rewrite fexp_eq in *.
  assert (Hdp : Zpos (digits2_pos (m * M100)) <= 106).
  { apply digits_le; [lia |]. rewrite Pos2Z.inj_mul.
    replace 106 with (53 + 53) by reflexivity.
    rewrite Z.pow_add_r by lia. pose proof M100_lt. rewrite pow2_53 in *.
    apply Z.mul_lt_mono_nonneg; lia. }
  set (k := Z.max (Zpos (digits2_pos (m * M100)) + E - 53) (-1074) - E) in *.
  assert (Hk : k <= 48 - e) by (unfold k, E; lia).
  rewrite M100_eq.
  rewrite <- Z.mul_assoc, <- Z.pow_add_r by lia.
  replace (48 + - e) with ((48 - e - k) + k) by lia.
  rewrite Z.pow_add_r by lia.
  rewrite Z.mul_assoc. apply Z.mod_mul.
  apply Z.pow_nonzero; lia.
Qed.

Lemma le_100_of_bound (m3 : positive) (e3 e : Z) :
  e < -52 ->
  SpecFloat.fexp prec emax (Zpos (digits2_pos m3) + e3) = e3 ->
  e + -46 <= e3 ->
  Zpos m3 * 2 ^ (e3 - (e + -46)) <= Zpos M100 * 2 ^ (- e) ->
  SFleb (S754_finite false m3 e3) (S754_finite false M100 (-46)) = true.
Proof.
  intros He Cr HE Hb. rewrite fexp_eq in Cr.
  unfold SFleb, SFcompare.
  assert (Hpos : 0 < 2 ^ (- e)) by (apply Z.pow_pos_nonneg; lia).
  destruct (Z.compare_spec e3 (-46)) as [He3 | He3 | He3]; auto.
  - subst e3.
    replace (-46 - (e + -46)) with (- e) in Hb by lia.
    apply Z.mul_le_mono_pos_r in Hb; [| exact Hpos].
    rewrite Pos.compare_cont_spec.
    destruct (Pos.compare_spec m3 M100) as [E3 | E3 | E3]; try reflexivity.
    exfalso. apply Pos2Z.pos_lt_pos in E3. lia.
  - exfalso.
    assert (Hd3 : Zpos (digits2_pos m3) = 53) by lia.
    pose proof (digits_lower m3) as L3. rewrite Hd3 in L3.
    replace (53 - 1) with 52 in L3 by reflexivity. rewrite pow2_52 in L3.
    replace (e3 - (e + -46)) with ((e3 + 46) + - e) in Hb by lia.
    rewrite Z.pow_add_r in Hb by lia.
    rewrite Z.mul_assoc in Hb.
    apply Z.mul_le_mono_pos_r in Hb; [| exact Hpos].
    assert (H : 2 ^ 1 <= 2 ^ (e3 + 46)) by (apply Z.pow_le_mono_r; lia).
    replace (2 ^ 1) with 2 in H by reflexivity.
    pose proof M100_lt as H0.
    clear - Hb L3 H H0.
    assert (4503599627370496 * 2 <= Zpos m3 * 2 ^ (e3 + 46))
      by (apply Z.mul_le_mono_nonneg; lia).
    lia.
Qed.

Lemma one_of_bound (m : positive) :
  Zpos (digits2_pos m) = 53 ->
  match Pos.compare_cont Eq m 4503599627370496 with
  | Lt | Eq => true
  | Gt => false
  end = true ->
  m = 4503599627370496%positive.
Proof.
  intros Hd H. rewrite Pos.compare_cont_spec in H.
  pose proof (digits_lower m) as L. rewrite Hd in L.
  replace (53 - 1) with 52 in L by reflexivity. rewrite pow2_52 in L.
  destruct (Pos.compare_spec m 4503599627370496) as [E | E | E];
    auto; try discriminate.
  apply Pos2Z.pos_lt_pos in E. lia.
Qed.

Lemma mul100_in_range x :
  in_range 0 1 x = true -> in_range 0 100 (x * 100) = true.
Proof.
  unfold in_range. rewrite !leb_spec.
  pose proof (Prim2SF_valid x) as Vx.
  pose proof (Prim2SF_valid (x * 100)) as Vr. rewrite mul_spec in *.
  rewrite sf0, sf1, sf100 in *.
  destruct (Prim2SF x) as [s | s | | s m e]; try (destruct s; discriminate).
  - destruct s; reflexivity.
  - discriminate.
  - intros H. apply andb_prop in H. destruct H as [H0 H1].
    destruct s; [discriminate |]. clear H0.
    apply canonical_digits in Vx. destruct Vx as [Cx _].
    rewrite fexp_eq in Cx.
    unfold SFleb, SFcompare in H1.
    destruct (Z.compare_spec e (-52)) as [He | He | He]; try discriminate.
    + subst e.
      assert (Hd : Zpos (digits2_pos m) = 53) by lia.
      rewrite (one_of_bound m Hd H1). apply mul100_one.
    + clear H1.
      assert (Hd : Zpos (digits2_pos m) <= 53) by lia.
      pose proof (digits_upper m) as U.
      assert (Hm : Zpos m < 2 ^ 53).
      { eapply Z.lt_le_trans; [exact U |]. apply Z.pow_le_mono_r; lia. }
      unfold SF64mul, SFmul in *. cbn [xorb] in *.
      assert (Hpe : 2 ^ 53 <= 2 ^ (- e)) by (apply Z.pow_le_mono_r; lia).
      assert (Hpos : 0 < 2 ^ (- e)) by (apply Z.pow_pos_nonneg; lia).
      assert (HP : Zpos (m * M100) < Zpos M100 * 2 ^ (- e)).
      { rewrite Pos2Z.inj_mul, Z.mul_comm.
        apply Z.mul_lt_mono_pos_l; lia. }
      pose proof (binary_round_aux_upper false (m * M100) (e + -46)
                    (Zpos M100 * 2 ^ (- e)) HP
                    (product_divisible m e Hm He)) as R.
      destruct (binary_round_aux prec emax false (Zpos (m * M100)) (e + -46)
                  loc_Exact) as [s' | s' | | s' m3 e3]; cbn [bra_upper_post] in R.
      * subst s'. reflexivity.
      * exfalso.
        replace (972 - (e + -46)) with (1018 + - e) in R by lia.
        rewrite Z.pow_add_r in R by lia.
        apply Z.mul_le_mono_pos_r in R; [| exact Hpos].
        assert (2 ^ 53 <= 2 ^ 1018) by (apply Z.pow_le_mono_r; lia).
        pose proof M100_lt. rewrite pow2_53 in *. lia.
      * contradiction.
      * destruct R as (-> & HE & Hb).
        apply canonical_digits in Vr. destruct Vr as [Cr _].
        rewrite (le_100_of_bound m3 e3 e He Cr HE Hb).
        reflexivity.
Qed.

Lemma digits_unique p k :
  2 ^ (k - 1) <= Zpos p < 2 ^ k -> Zpos (digits2_pos p) = k.
Proof.
  intros [L U].
  pose proof (digits_lower p) as L'. pose proof (digits_upper p) as U'.
  assert (Hk : 0 < k).
  { destruct (Z_lt_le_dec 0 k); auto.
    assert (2 ^ k <= 2 ^ 0) by (apply Z.pow_le_mono_r; lia).
    change (2 ^ 0) with 1 in *. lia. }
  assert (H1 : 2 ^ (k - 1) < 2 ^ Zpos (digits2_pos p)) by lia.
  assert (H2 : 2 ^ (Zpos (digits2_pos p) - 1) < 2 ^ k) by lia.
  apply Z.pow_lt_mono_r_iff in H1; [| lia | lia].
  apply Z.pow_lt_mono_r_iff in H2; [| lia | lia].
  lia.
Qed.

Lemma iter_xO t k : Zpos (Pos.iter xO t k) = Zpos t * 2 ^ Zpos k.
Proof.
  induction k as [| k IH] using Pos.peano_ind.
  - simpl. lia.
  - rewrite Pos.iter_succ, Pos2Z.inj_xO, IH, Pos2Z.inj_succ, Z.pow_succ_r by lia.
    lia.
Qed.

(** Rounding a 53-bit mantissa changes nothing. *)
Lemma binary_round_aux_exact s (P : positive) E :
  Zpos (digits2_pos P) = 53 -> -1074 <= E ->
  binary_round_aux prec emax s (Zpos P) E loc_Exact =
  if E <=? 971 then S754_finite s P E else S754_infinity s.
Proof.
  intros Hd HE. unfold binary_round_aux, shr_fexp.
  cbn [Zdigits2 shr_record_of_loc]. rewrite Hd, fexp_eq.
  replace (Z.max (53 + E - 53) (-1074) - E) with 0 by lia.
  cbn [shr shr_m loc_of_shr_record round_nearest_even Zdigits2
       shr_record_of_loc].
  rewrite Hd, fexp_eq.
  replace (Z.max (53 + E - 53) (-1074) - E) with 0 by lia.
  reflexivity.
Qed.

Lemma bounded_53 (m : positive) e :
  Zpos (digits2_pos m) = 53 -> -1074 <= e -> e <= 971 ->
  bounded prec emax m e = true.
Proof.
  intros Hd H1 H2. unfold bounded, canonical_mantissa.
  rewrite Hd, fexp_eq. apply andb_true_intro. split.
  - apply Z.eqb_eq. lia.
  - apply Z.leb_le. exact H2.
Qed.


Lemma positive_result_exact (P : positive) E :
  Zpos (digits2_pos P) = 53 -> -1074 <= E ->
  positive_result (binary_round_aux prec emax false (Zpos P) E loc_Exact).
Proof.
  intros Hd HE. rewrite binary_round_aux_exact by assumption.
  destruct (Z.leb_spec E 971).
  - split; [apply bounded_53; auto | left; eauto].
  - split; [reflexivity | right; reflexivity].
Qed.

(** Rounding a longer mantissa: one shift, possibly a carry. *)
Lemma positive_result_shift (P : positive) E :
  53 < Zpos (digits2_pos P) -> -1074 <= E ->
  positive_result (binary_round_aux prec emax false (Zpos P) E loc_Exact).
Proof.
  intros Hd HE. unfold binary_round_aux, shr_fexp.
  cbn [Zdigits2]. rewrite fexp_eq.
  set (d := Zpos (digits2_pos P)) in *.
  replace (Z.max (d + E - 53) (-1074) - E) with (d - 53) by lia.
  destruct (shr_spec (Zpos P) loc_Exact E (d - 53)) as [_ S1]; [lia |].
  destruct S1 as [M1 M2]; [lia |].
  destruct (shr (shr_record_of_loc (Zpos P) loc_Exact) E (d - 53))
    as [mrs' e']. cbn [fst snd] in M1, M2. subst e'.
  pose proof (rne_bounds (shr_m mrs') (loc_of_shr_record mrs')) as Hb.
  set (m2 := round_nearest_even (shr_m mrs') (loc_of_shr_record mrs')) in *.
  rewrite M1 in Hb.
  (* the quotient has 53 bits *)
  pose proof (digits_lower P) as L. pose proof (digits_upper P) as U.
  fold d in L, U.
  assert (Hpow : 0 < 2 ^ (d - 53)) by (apply Z.pow_pos_nonneg; lia).
  assert (Hq : 2 ^ 52 <= Zpos P / 2 ^ (d - 53) < 2 ^ 53).
  { split.
    - apply Z.div_le_lower_bound; [lia |].
      rewrite Z.mul_comm, <- Z.pow_add_r by lia.
      replace (52 + (d - 53)) with (d - 1) by lia. exact L.
    - apply Z.div_lt_upper_bound; [lia |].
      rewrite <- Z.pow_add_r by lia.
      replace (d - 53 + 53) with d by lia. exact U. }
  rewrite pow2_52, pow2_53 in Hq.
  destruct m2 as [| q | q] eqn:Em2; try lia.
  cbn [Zdigits2].
  destruct (Z_lt_le_dec (Zpos q) 9007199254740992) as [Hlt | Hge].
  - (* no carry *)
    assert (Hdq : Zpos (digits2_pos q) = 53).
    { apply digits_unique. replace (53 - 1) with 52 by reflexivity.
      rewrite pow2_52, pow2_53. lia. }
    rewrite Hdq, fexp_eq.
    replace (Z.max (53 + (E + (d - 53)) - 53) (-1074) - (E + (d - 53)))
      with 0 by lia.
    cbn [shr shr_m shr_record_of_loc].
    destruct (Z.leb_spec (E + (d - 53)) (emax - prec)) as [H | H].
    + split; [apply bounded_53; auto; lia | left; eauto].
    + split; [reflexivity | right; reflexivity].
  - (* carry: the mantissa is 2^53 *)
    assert (Hq53 : q = 9007199254740992%positive) by lia. subst q.
    cbn [digits2_pos Pos.succ]. rewrite fexp_eq.
    replace (Z.max (54 + (E + (d - 53)) - 53) (-1074) - (E + (d - 53)))
      with 1 by lia.
    cbn [shr shr_m shr_record_of_loc iter_pos shr_1].
    destruct (Z.leb_spec (E + (d - 53) + 1) (emax - prec)) as [H | H].
    + split; [apply bounded_53; auto; lia | left; eauto].
    + split; [reflexivity | right; reflexivity].
Qed.

Lemma positive_result_normalize (t : positive) :
  positive_result (binary_normalize prec emax (Zpos t) (-30) false).
Proof.
  unfold binary_normalize, binary_round, shl_align. rewrite fexp_eq.
  set (d := Zpos (digits2_pos t)).
  assert (Hd : 0 < d) by (unfold d; lia).
  replace (Z.max (d + -30 - 53) (-1074)) with (d - 83) by lia.
  replace (d - 83 - -30) with (d - 53) by lia.
  pose proof (digits_lower t) as L. pose proof (digits_upper t) as U.
  fold d in L, U.
  destruct (d - 53) as [| k | k] eqn:Ek.
  - apply positive_result_exact; fold d; lia.
  - apply positive_result_shift; fold d; lia.
  - apply positive_result_exact; [| lia].
    apply digits_unique. rewrite iter_xO.
    assert (Hk : Zpos k = 53 - d) by lia. rewrite Hk.
    assert (Hp : 0 < 2 ^ (53 - d)) by (apply Z.pow_pos_nonneg; lia).
    split.
    + replace (53 - 1) with ((d - 1) + (53 - d)) by lia.
      rewrite Z.pow_add_r by lia. apply Z.mul_le_mono_nonneg_r; lia.
    + replace (2 ^ 53) with (2 ^ d * 2 ^ (53 - d))
        by (rewrite <- Z.pow_add_r by lia; f_equal; lia).
      apply Z.mul_lt_mono_pos_r; lia.
Qed.


Lemma truediv_positive (a : Z) (q : float) :
  0 < a -> int_truediv_2p30 a = Some q -> positive_float q = true.
Proof.
  intros Ha. unfold int_truediv_2p30, positive_float.
  destruct (is_infinity _); [discriminate |]. intros H. inversion H; clear H.
  destruct a as [| t | t]; try lia.
  destruct (positive_result_normalize t) as [V R].
  rewrite ltb_spec, sf0, Prim2SF_SF2Prim by exact V.
  destruct R as [(m & e & ->) | ->]; reflexivity.
Qed.

End Binary64.

(** ** C8: the ranges of the snapshot *)

(** The specification's wording of C8 fails: a device that does not report
    its utilisation has a [nan] load, the sensor samples it successfully,
    and the value shown is ["nan%"]. *)
Lemma ranges_hold_counterexample :
  ~ ranges_hold gpu_not_supported (trace (boot gpu_not_supported)) /\
  gpu_usage_var (vars (main gpu_not_supported 0)) = "nan%".
Proof.
  split; [| vm_compute; reflexivity].
  intros (_ & _ & _ & H).
  specialize (H eq_refl (mkGPU "GPU0" nan) [] eq_refl).
  vm_compute in H. discriminate H.
Qed.

(** C8, amended.  The sensors check no range and clamp nothing; the
    numbers of a snapshot are in range whenever the readings of the
    libraries are: a CPU or RAM percentage is the float [psutil] returned,
    the RAM total is positive when [psutil] reports a positive number of
    bytes, and the GPU percentage lies in [0, 100] when the load [GPUtil]
    reports lies in [0, 1]. *)
Theorem ranges_follow_the_libraries (w : World) (tr : list event) :
  libraries_in_range w tr -> ranges_hold w tr.
Proof.
  intros (Hcpu & Hmem & Hgpu). repeat split.
  - intros x. unfold cpu_usage_reading.
    destruct (psutil_cpu_percent w _) as [p | e] eqn:E; [| discriminate].
    intros [= <-]. now apply Hcpu.
  - intros x. unfold ram_reading, ram_attempt.
    destruct (psutil_virtual_memory w _) as [memory | e] eqn:E;
      [| discriminate].
    destruct (int_truediv_2p30 (total memory)); [| discriminate].
    cbn [snd]. intros [= <-]. now apply (Hmem memory).
  - intros gb pct. unfold ram_attempt.
    destruct (psutil_virtual_memory w _) as [memory | e] eqn:E;
      [| discriminate].
    destruct (int_truediv_2p30 (total memory)) as [q |] eqn:Q;
      [| discriminate].
    intros [= <- _]. apply (truediv_positive (total memory)); auto.
    now apply (Hmem memory).
  - intros _ gpu others E. unfold gpu_load_percent.
    apply mul100_in_range. now apply (Hgpu gpu others).
Qed.

Lemma ranges_follow_the_libraries_witness :
  libraries_in_range nominal (trace (boot nominal)) /\
  ranges_hold nominal (trace (boot nominal)).
Proof.
  assert (H : libraries_in_range nominal (trace (boot nominal))).
  { repeat split.
    - intros p [= <-]. reflexivity.
    - injection H as <-. reflexivity.
    - injection H as <-. reflexivity.
    - intros gpu others [= <- _]. reflexivity. }
  split; [exact H |].
  exact (@ranges_follow_the_libraries nominal (trace (boot nominal)) H).
Defined.

(** * Further properties of the code *)

(** ** More bookkeeping *)

Lemma prints_of_app (a b : list event) :
  prints_of (a ++ b) = (prints_of a ++ prints_of b)%list.
Proof. apply flat_map_app. Qed.

Ltac count_prints :=
  repeat rewrite prints_of_app; simpl prints_of;
  repeat rewrite app_nil_r; repeat rewrite <- app_assoc.

Lemma dict_get_missing d key default :
  key_missing d key -> dict_get d key default = default.
Proof.
  induction d as [| [k v] d IH]; intros H; simpl; auto.
  destruct (String.eqb_spec k key) as [-> | _].
  - exfalso. apply (H v). now left.
  - apply IH. intros v' Hin. apply (H v'). now right.
Qed.

(** ** The CPU sensor (lines 52-69) *)

(** The two halves of [get_cpu_info] do not influence each other: both
    libraries are called exactly once whatever the other one does; a failed
    name lookup leaves the usage reading intact and a failed usage
    measurement leaves the name intact; each failure logs one line; and a
    dictionary without the key [brand_raw] gives the name ["N/A"] without
    logging anything. *)
Theorem cpu_halves_independent (w : World) (st : St) :
  let n1 := calls_of c_get_cpu_info (trace st) in
  let n2 := calls_of c_cpu_percent (trace st) in
  exists r st',
    get_cpu_info w st = (Ret r, st') /\
    calls_of c_get_cpu_info (trace st') = S n1 /\
    calls_of c_cpu_percent (trace st') = S n2 /\
    (forall e p,
        cpuinfo_get_cpu_info w n1 = Raise e -> psutil_cpu_percent w n2 = Ret p ->
        r = ("N/A (Error getting name)", VFloat p) /\
        prints_of (trace st') =
          (prints_of (trace st) ++ [("CPU Name Error: " ++ exn_msg e)%string])%list) /\
    (forall info e,
        cpuinfo_get_cpu_info w n1 = Ret info -> psutil_cpu_percent w n2 = Raise e ->
        r = (dict_get info "brand_raw" "N/A", VStr "N/A") /\
        prints_of (trace st') =
          (prints_of (trace st) ++ [("CPU Usage Error: " ++ exn_msg e)%string])%list) /\
    (forall info p,
        cpuinfo_get_cpu_info w n1 = Ret info -> psutil_cpu_percent w n2 = Ret p ->
        key_missing info "brand_raw" ->
        r = ("N/A", VFloat p) /\ prints_of (trace st') = prints_of (trace st)).
Proof.
  intros n1 n2. subst n1 n2. unfold get_cpu_info. run_monad.
  destruct (cpuinfo_get_cpu_info w _) as [info | e1]; simpl; count_calls;
    destruct (psutil_cpu_percent w _) as [p | e2]; simpl;
    eexists; eexists; (split; [reflexivity |]); simpl; count_calls;
    (split; [reflexivity |]); (split; [reflexivity |]);
    repeat split; intros; try discriminate;
    repeat match goal with H : Ret _ = Ret _ |- _ => injection H as <- end;
    repeat match goal with H : Raise _ = Raise _ |- _ => injection H as <- end;
    count_prints; try reflexivity.
  rewrite dict_get_missing by assumption. reflexivity.
Qed.

(** ** The memory sensor (lines 71-80) *)

Section RenderingFacts.
Local Open Scope Z_scope.
Local Unset Implicit Arguments.

Lemma int_digits_first (n : Z) :
  exists a rest, int_digits n = String a rest /\ a <> "N"%char.
Proof.
  unfold int_digits, NilZero.string_of_uint.
  destruct (N.to_uint (Z.to_N n)); simpl;
    eexists; eexists; (split; [reflexivity | discriminate]).
Qed.

Lemma fixed_str_first (prec : nat) (s : bool) (n : Z) :
  exists a rest, fixed_str prec s n = String a rest /\ a <> "N"%char.
Proof.
  unfold fixed_str. destruct s; simpl.
  - eexists; eexists; (split; [reflexivity | discriminate]).
  - destruct (int_digits_first (n / 10 ^ Z.of_nat prec)) as (a & rest & -> & Ha).
    simpl. eauto.
Qed.

(** No rendering of a float starts like a sentinel. *)
Lemma format_f_first (prec : nat) (x : float) :
  exists a rest, format_f prec x = String a rest /\ a <> "N"%char.
Proof.
  unfold format_f. destruct (Prim2SF x) as [s | s | | s m e].
  - apply fixed_str_first.
  - destruct s; simpl; eexists; eexists; (split; [reflexivity | discriminate]).
  - simpl; eexists; eexists; (split; [reflexivity | discriminate]).
  - apply fixed_str_first.
Qed.

Lemma rendering_available (prec : nat) (x : float) (suffix : string) :
  startswith (format_f prec x ++ suffix) "N/A" = false.
Proof.
  destruct (format_f_first prec x) as (a & rest & -> & Ha).
  unfold startswith.
  change (String a rest ++ suffix)%string with (String a (rest ++ suffix)%string).
  cbn [String.prefix].
  destruct (ascii_dec "N" a) as [E | E]; [congruence | reflexivity].
Qed.

Lemma round_half_even_scale (a b k : Z) :
  0 < b -> 0 < k ->
  round_half_even (a * k) (b * k) = round_half_even a b.
Proof.
  intros Hb Hk. unfold round_half_even.
  rewrite Z.div_mul_cancel_r by lia.
  rewrite Z.mul_mod_distr_r by lia.
  pose proof (Z.mod_pos_bound a b Hb) as Hr.
  set (r := a mod b) in *. set (q := a / b).
  destruct (Z.ltb_spec (2 * r) b), (Z.ltb_spec (2 * (r * k)) (b * k));
    try nia; try reflexivity.
  destruct (Z.ltb_spec b (2 * r)), (Z.ltb_spec (b * k) (2 * (r * k)));
    try nia; reflexivity.
Qed.

(** Rounding to the nearest integer is off by at most one half. *)
Lemma round_half_even_error (a b : Z) :
  0 < b -> 2 * Z.abs (round_half_even a b * b - a) <= b.
Proof.
  intros Hb. unfold round_half_even.
  pose proof (Z.div_mod a b ltac:(lia)) as D.
  pose proof (Z.mod_pos_bound a b Hb) as Hr.
  set (r := a mod b) in *. set (q := a / b) in *.
  destruct (Z.ltb_spec (2 * r) b); [nia |].
  destruct (Z.ltb_spec b (2 * r)); [nia |].
  destruct (Z.even q); nia.
Qed.

(** Below 2^53 the quotient by 2^30 is exact: only the exponent moves. *)
Lemma binary_normalize_small (t : positive) :
  Zpos (digits2_pos t) <= 53 ->
  exists mz,
    binary_normalize prec emax (Zpos t) (-30) false =
      S754_finite false mz (Zpos (digits2_pos t) - 83) /\
    Zpos mz = Zpos t * 2 ^ (53 - Zpos (digits2_pos t)) /\
    Zpos (digits2_pos mz) = 53.
Proof.
  intros Hd53.
  unfold binary_normalize, binary_round, shl_align. rewrite fexp_eq.
  set (d := Zpos (digits2_pos t)) in *.
  assert (Hd : 0 < d) by (unfold d; lia).
  replace (Z.max (d + -30 - 53) (-1074)) with (d - 83) by lia.
  replace (d - 83 - -30) with (d - 53) by lia.
  pose proof (digits_lower t) as L. pose proof (digits_upper t) as U.
  fold d in L, U.
  destruct (d - 53) as [| k | k] eqn:Ek; try lia.
  - assert (E : d = 53) by lia.
    exists t. rewrite binary_round_aux_exact by (fold d; lia).
    replace (-30 <=? 971) with true by reflexivity.
    rewrite E. repeat split; try reflexivity.
    + change (2 ^ (53 - 53)) with 1. lia.
    + fold d. exact E.
  - assert (Hk : Zpos k = 53 - d) by lia.
    assert (Hp : 0 < 2 ^ (53 - d)) by (apply Z.pow_pos_nonneg; lia).
    assert (D : Zpos (digits2_pos (Pos.iter xO t k)) = 53).
    { apply digits_unique. rewrite iter_xO, Hk. split.
      + replace (53 - 1) with ((d - 1) + (53 - d)) by lia.
        rewrite Z.pow_add_r by lia. apply Z.mul_le_mono_nonneg_r; lia.
      + replace (2 ^ 53) with (2 ^ d * 2 ^ (53 - d))
          by (rewrite <- Z.pow_add_r by lia; f_equal; lia).
        apply Z.mul_lt_mono_pos_r; lia. }
    exists (Pos.iter xO t k).
    rewrite binary_round_aux_exact by (auto; lia).
    destruct (Z.leb_spec (d - 83) 971); [| lia].
    repeat split; auto. now rewrite iter_xO, Hk.
Qed.

Lemma sf_infinity : Prim2SF infinity = S754_infinity false.
Proof. reflexivity. Qed.

(** [total / 2**30] for [0 < total < 2**53], and its rendering. *)
Lemma truediv_small (a : Z) :
  0 < a < 2 ^ 53 ->
  exists q,
    int_truediv_2p30 a = Some q /\
    format_f 2 q = fixed_str 2 false (round_half_even (a * 100) (2 ^ 30)).
Proof.
  intros [Ha Hb]. destruct a as [| t | t]; try lia.
  assert (Hd : Zpos (digits2_pos t) <= 53) by (apply digits_le; lia).
  destruct (binary_normalize_small t Hd) as (mz & E & Hmz & Dmz).
  set (d := Zpos (digits2_pos t)) in *.
  assert (Hd0 : 0 < d) by (unfold d; lia).
  assert (V : valid_binary (S754_finite false mz (d - 83)) = true)
    by (apply bounded_53; auto; lia).
  exists (SF2Prim (S754_finite false mz (d - 83))). split.
  - unfold int_truediv_2p30. rewrite E.
    unfold is_infinity.
    rewrite eqb_spec, abs_spec, sf_infinity, Prim2SF_SF2Prim by exact V.
    reflexivity.
  - unfold format_f. rewrite Prim2SF_SF2Prim by exact V.
    f_equal. unfold scaled.
    destruct (Z.leb_spec 0 (d - 83)); [lia |].
    change (10 ^ Z.of_nat 2) with 100.
    rewrite Hmz.
    replace (- (d - 83)) with (30 + (53 - d)) by lia.
    rewrite Z.pow_add_r by lia.
    replace (Zpos t * 2 ^ (53 - d) * 100) with (Zpos t * 100 * 2 ^ (53 - d))
      by lia.
    apply round_half_even_scale.
    + reflexivity.
    + apply Z.pow_pos_nonneg; lia.
Qed.

End RenderingFacts.

(** The two values of [get_ram_info] are unavailable together or not at
    all.  [psutil.virtual_memory] is called once and the function never
    raises.  When the call returns and the division has a float result, the
    pair is the rendered total, which never reads like a sentinel, and the
    usage as a number, and nothing is logged.  When the [try] block raises,
    be it the library call or the division (an [OverflowError] for a total
    too large for a float), both values are the sentinel ["N/A"] and one
    line is logged. *)
Theorem ram_fields_fail_together (w : World) (st : St) :
  let n := calls_of c_virtual_memory (trace st) in
  exists r st',
    get_ram_info w st = (Ret r, st') /\
    calls_of c_virtual_memory (trace st') = S n /\
    unavailable (VStr (fst r)) = unavailable (snd r) /\
    (unavailable (snd r) = true -> r = ("N/A", VStr "N/A")) /\
    (forall memory total_ram_gb,
        psutil_virtual_memory w n = Ret memory ->
        int_truediv_2p30 (total memory) = Some total_ram_gb ->
        r = ((format_f 2 total_ram_gb ++ " GB")%string,
             VFloat (percent memory)) /\
        unavailable (VStr (fst r)) = false /\
        prints_of (trace st') = prints_of (trace st)) /\
    (forall e,
        psutil_virtual_memory w n = Raise e ->
        r = ("N/A", VStr "N/A") /\
        prints_of (trace st') =
          (prints_of (trace st) ++ [("RAM Info Error: " ++ exn_msg e)%string])%list) /\
    (forall memory,
        psutil_virtual_memory w n = Ret memory ->
        int_truediv_2p30 (total memory) = None ->
        r = ("N/A", VStr "N/A") /\
        prints_of (trace st') =
          (prints_of (trace st) ++
           ["RAM Info Error: integer division result too large for a float"])%list).
Proof.
  intros n. subst n. unfold get_ram_info, bytes_to_gb. run_monad.
  destruct (psutil_virtual_memory w _) as [memory | e]; simpl.
  - destruct (int_truediv_2p30 (total memory)) as [q |] eqn:Q; simpl;
      eexists; eexists; (split; [reflexivity |]); simpl; count_calls;
      (split; [reflexivity |]).
    + split; [apply rendering_available |]. split; [discriminate |].
      split; [| split]; try discriminate.
      * intros m g Hm Hg. injection Hm as <-. rewrite Q in Hg.
        injection Hg as <-. split; [reflexivity |].
        split; [apply rendering_available |]. count_prints. reflexivity.
      * intros m Hm Hg. injection Hm as <-. congruence.
    + split; [reflexivity |]. split; [reflexivity |].
      split; [| split]; try discriminate.
      * intros m g Hm Hg. injection Hm as <-. congruence.
      * intros m Hm _. split; [reflexivity |]. count_prints. reflexivity.
  - eexists; eexists; (split; [reflexivity |]); simpl; count_calls;
      (split; [reflexivity |]).
    split; [reflexivity |]. split; [reflexivity |].
    split; [| split]; try discriminate.
    intros e' He. injection He as <-. split; [reflexivity |].
    count_prints. reflexivity.
Qed.

(** For a byte count between 1 and 2^53 - 1 the total shown is exact: it is
    [total * 100 / 2^30] rounded to the nearest integer, ties to even,
    written with two decimals and the unit; so it differs from the true
    quotient by at most half a hundredth of a GB. *)
Theorem ram_total_exact (w : World) (st : St) (memory : svmem) :
  psutil_virtual_memory w (calls_of c_virtual_memory (trace st)) = Ret memory ->
  (0 < total memory < 2 ^ 53)%Z ->
  let hundredths := round_half_even (total memory * 100) (2 ^ 30) in
  exists st',
    get_ram_info w st =
      (Ret (fixed_str 2 false hundredths ++ " GB", VFloat (percent memory)), st') /\
    (2 * Z.abs (hundredths * 2 ^ 30 - total memory * 100) <= 2 ^ 30)%Z.
Proof.
  intros Hm Ht hundredths.
  destruct (truediv_small (total memory) Ht) as (q & Hq & Hf).
  unfold get_ram_info, bytes_to_gb. run_monad.
  rewrite Hm. simpl. rewrite Hq. simpl. rewrite Hf.
  eexists. split; [reflexivity |].
  apply round_half_even_error. reflexivity.
Qed.

Lemma ram_total_exact_witness :
  psutil_virtual_memory nominal
    (calls_of c_virtual_memory (trace (boot nominal))) =
    Ret (mkSvmem 2147483648 37.5) /\
  (0 < 2147483648 < 2 ^ 53)%Z /\
  exists st',
    get_ram_info nominal (boot nominal) = (Ret ("2.00 GB", VFloat 37.5), st').
Proof.
  split; [reflexivity |]. split; [split; reflexivity |].
  destruct (@ram_total_exact nominal (boot nominal) (mkSvmem 2147483648 37.5)
              eq_refl (conj eq_refl eq_refl)) as (st' & E & _).
  exists st'. exact E.
Defined.

(** ** The network sensor (lines 25-50): edges of the socket handling *)

Ltac split_answers :=
  repeat (match goal with
          | |- context [match ?o with Ret _ => _ | Raise _ => _ end] =>
              destruct o as [? | [[] ?]] eqn:?
          end; simpl; count_calls).

Ltac close_leaf :=
  intros;
  repeat match goal with
         | H : _ /\ _ |- _ => destruct H
         | H : Ret _ = Ret _ |- _ => injection H as ?; subst
         | H : Raise _ = Raise _ |- _ => injection H as ?; subst
         end;
  try congruence; try discriminate.

(** [settimeout] sits between the creation of the socket and the [try]
    block whose [finally] closes it: when it raises, the function returns
    the failure sentinel of that exception, the connect trick is never
    attempted, and [close] is not called on the socket that was opened. *)
Theorem timeout_failure_skips_close (w : World) (st : St)
    (hostname a : string) (e : exn) :
  resolution w (trace st) hostname a -> startswith a "127." = true ->
  socket_socket w (calls_of c_socket (trace st)) = Ret tt ->
  socket_settimeout w (calls_of c_settimeout (trace st)) = Raise e ->
  exists st',
    get_ip_address w st =
      (Ret match exn_cls e with
           | gaierror => "N/A (Network Error)"
           | _ => "N/A (Error)"
           end, st') /\
    calls_of c_socket (trace st') = S (calls_of c_socket (trace st)) /\
    calls_of c_connect (trace st') = calls_of c_connect (trace st) /\
    calls_of c_close (trace st') = calls_of c_close (trace st).
Proof.
  intros [H1 H2] Hl H3 H4. unfold get_ip_address. run_monad.
  rewrite H1. simpl. count_calls. rewrite H2. simpl. rewrite Hl. simpl.
  count_calls. rewrite H3. simpl. count_calls. rewrite H4. simpl.
  destruct e as [[] m]; simpl; count_calls;
    eexists; (split; [reflexivity |]); simpl; count_calls; auto.
Qed.

Lemma timeout_failure_skips_close_witness :
  resolution timeout_refused (trace (boot timeout_refused)) "myhost" "127.0.1.1" /\
  exists st',
    get_ip_address timeout_refused (boot timeout_refused) =
      (Ret "N/A (Error)", st') /\
    calls_of c_socket (trace st') = 1 /\
    calls_of c_connect (trace st') = 0 /\
    calls_of c_close (trace st') = 0.
Proof.
  assert (Hr : resolution timeout_refused (trace (boot timeout_refused))
                 "myhost" "127.0.1.1") by (split; reflexivity).
  split; [exact Hr |].
  exact (@timeout_failure_skips_close timeout_refused (boot timeout_refused)
           "myhost" "127.0.1.1" (OSError "[Errno 9] Bad file descriptor")
           Hr eq_refl eq_refl eq_refl).
Defined.

(** An exception of [close], raised in the [finally] clause, replaces
    whatever the [try] statement had produced: even when the trick or the
    second resolution had found an address, the function returns the
    failure sentinel of the exception of [close]. *)
Theorem close_failure_discards_address (w : World) (st : St)
    (hostname a : string) (e : exn) :
  resolution w (trace st) hostname a -> startswith a "127." = true ->
  socket_opened w (trace st) ->
  socket_close w (calls_of c_close (trace st)) = Raise e ->
  exists st',
    get_ip_address w st =
      (Ret match exn_cls e with
           | gaierror => "N/A (Network Error)"
           | _ => "N/A (Error)"
           end, st') /\
    calls_of c_close (trace st') = S (calls_of c_close (trace st)).
Proof.
  intros Hr Hl Ho Hc.
  pose proof (get_ip_address_result w st) as R.
  pose proof (@get_ip_address_closes w st hostname a Hr Hl Ho) as C.
  destruct (get_ip_address w st) as [o st']. simpl in R, C. subst o.
  exists st'. split; [| exact C]. do 2 f_equal.
  destruct Hr as [H1 H2]. destruct Ho as [H3 H4].
  unfold ip_reading, ip_attempt. now rewrite H1, H2, Hl, H3, H4, Hc.
Qed.

Lemma close_failure_discards_address_witness :
  resolution close_fails (trace (boot close_fails)) "myhost" "127.0.1.1" /\
  socket_opened close_fails (trace (boot close_fails)) /\
  trick_attempt close_fails (trace (boot close_fails)) = Ret "192.168.1.50" /\
  exists st',
    get_ip_address close_fails (boot close_fails) = (Ret "N/A (Error)", st') /\
    calls_of c_close (trace st') = 1.
Proof.
  assert (Hr : resolution close_fails (trace (boot close_fails))
                 "myhost" "127.0.1.1") by (split; reflexivity).
  assert (Ho : socket_opened close_fails (trace (boot close_fails)))
    by (split; reflexivity).
  split; [exact Hr |]. split; [exact Ho |]. split; [reflexivity |].
  exact (@close_failure_discards_address close_fails (boot close_fails)
           "myhost" "127.0.1.1" (OSError "[Errno 5] Input/output error")
           Hr eq_refl Ho eq_refl).
Defined.

(** What [get_ip_address] logs: nothing on success, nothing for a
    [gaierror] (it is turned into its sentinel silently), and exactly one
    line, carrying the message, for any other exception. *)
Theorem ip_failures_logged (w : World) (st : St) :
  exists st',
    get_ip_address w st = (Ret (ip_reading w (trace st)), st') /\
    prints_of (trace st') =
      (prints_of (trace st) ++
       match ip_attempt w (trace st) with
       | Ret _ => []
       | Raise e =>
           match exn_cls e with
           | gaierror => []
           | _ => [("IP Address Error: " ++ exn_msg e)%string]
           end
       end)%list.
Proof.
  unfold get_ip_address, ip_reading, ip_attempt, trick_attempt. run_monad.
  split_answers;
    try (destruct (startswith _ "127."); simpl; count_calls; split_answers);
    repeat match goal with
           | H : Ret _ = Ret _ |- _ => injection H as ?; subst
           | H : Raise _ = Raise _ |- _ => injection H as ?; subst
           | H : Ret _ = Raise _ |- _ => discriminate H
           | H : Raise _ = Ret _ |- _ => discriminate H
           end;
    first [ solve [exfalso; congruence]
          | eexists; (split; [reflexivity |]); simpl; count_prints;
            reflexivity ].
Qed.

Ltac tidy_answers :=
  repeat match goal with
         | H : _ /\ _ |- _ => destruct H
         | H : Ret _ = Ret _ |- _ => injection H as ?; subst
         | H : Raise _ = Raise _ |- _ => injection H as ?; subst
         | H : Ret _ = Raise _ |- _ => discriminate H
         | H : Raise _ = Ret _ |- _ => discriminate H
         end.

Lemma gethostname_called_once w st :
  calls_of c_gethostname (trace (snd (get_ip_address w st))) =
  S (calls_of c_gethostname (trace st)).
Proof.
  unfold get_ip_address. run_monad.
  split_answers;
    try (destruct (startswith _ "127."); simpl; count_calls; split_answers);
    reflexivity.
Qed.

(** How often the host name is resolved.  [gethostname] is called exactly
    once.  [gethostbyname] is called once when the address is not a
    loopback address or when the connect trick succeeds, and a second time
    exactly when the trick failed; it is not called at all when
    [gethostname] raised. *)
Theorem second_resolution_after_failed_trick (w : World) (st : St) :
  let tr := trace st in
  let tr' := trace (snd (get_ip_address w st)) in
  calls_of c_gethostname tr' = S (calls_of c_gethostname tr) /\
  (forall e,
      socket_gethostname w (calls_of c_gethostname tr) = Raise e ->
      calls_of c_gethostbyname tr' = calls_of c_gethostbyname tr) /\
  (forall hostname a,
      resolution w tr hostname a -> startswith a "127." = false ->
      calls_of c_gethostbyname tr' = S (calls_of c_gethostbyname tr)) /\
  (forall hostname a b,
      resolution w tr hostname a -> startswith a "127." = true ->
      socket_opened w tr -> trick_attempt w tr = Ret b ->
      calls_of c_gethostbyname tr' = S (calls_of c_gethostbyname tr)) /\
  (forall hostname a e,
      resolution w tr hostname a -> startswith a "127." = true ->
      socket_opened w tr -> trick_attempt w tr = Raise e ->
      calls_of c_gethostbyname tr' = S (S (calls_of c_gethostbyname tr))).
Proof.
  intros tr tr'. subst tr tr'.
  split; [apply gethostname_called_once |].
  unfold resolution, socket_opened, trick_attempt, get_ip_address. run_monad.
  split; [| split; [| split]].
  - intros e H. rewrite H. destruct e as [[] m]; simpl; count_calls;
      reflexivity.
  - intros hostname a [H1 H2] Hl. rewrite H1. simpl. count_calls.
    rewrite H2. simpl. rewrite Hl. simpl. count_calls. reflexivity.
  - intros hostname a b [H1 H2] Hl [H3 H4] Ht.
    rewrite H1. simpl. count_calls. rewrite H2. simpl. rewrite Hl. simpl.
    count_calls. rewrite H3. simpl. count_calls. rewrite H4. simpl.
    count_calls.
    destruct (socket_connect w _) as [[] | e1]; [| discriminate].
    simpl. count_calls.
    destruct (socket_getsockname w _) as [sockname | e2]; [| discriminate].
    simpl. count_calls.
    destruct (socket_close w _) as [[] | [[] m]]; simpl; count_calls;
      reflexivity.
  - intros hostname a e [H1 H2] Hl [H3 H4] Ht.
    rewrite H1. simpl. count_calls. rewrite H2. simpl. rewrite Hl. simpl.
    count_calls. rewrite H3. simpl. count_calls. rewrite H4. simpl.
    count_calls.
    destruct (socket_connect w _) as [[] | e1]; simpl; count_calls.
    + destruct (socket_getsockname w _) as [sockname | e2]; [discriminate |].
      simpl. count_calls.
      destruct (socket_gethostbyname w (S _) hostname) as [a2 | [[] m3]];
        simpl; count_calls;
        destruct (socket_close w _) as [[] | [[] m]]; simpl; count_calls;
        reflexivity.
    + destruct (socket_gethostbyname w (S _) hostname) as [a2 | [[] m3]];
        simpl; count_calls;
        destruct (socket_close w _) as [[] | [[] m]]; simpl; count_calls;
        reflexivity.
Qed.

(** ** Whole executions: what every tick does *)

Lemma cpu_calls_once w st :
  calls_of c_get_cpu_info (trace (snd (get_cpu_info w st))) =
    S (calls_of c_get_cpu_info (trace st)) /\
  calls_of c_cpu_percent (trace (snd (get_cpu_info w st))) =
    S (calls_of c_cpu_percent (trace st)).
Proof.
  unfold get_cpu_info. run_monad.
  destruct (cpuinfo_get_cpu_info w _) as [info | e1]; simpl; count_calls;
    destruct (psutil_cpu_percent w _) as [p | e2]; simpl; count_calls;
    split; reflexivity.
Qed.

Lemma ram_calls_once w st :
  calls_of c_virtual_memory (trace (snd (get_ram_info w st))) =
  S (calls_of c_virtual_memory (trace st)).
Proof.
  unfold get_ram_info, bytes_to_gb. run_monad.
  destruct (psutil_virtual_memory w _) as [memory | e]; simpl; count_calls;
    [destruct (int_truediv_2p30 (total memory)); simpl; count_calls |];
    reflexivity.
Qed.

Lemma gpu_calls_once w st :
  gpus_available w = true ->
  calls_of c_getGPUs (trace (snd (get_gpu_info w st))) =
  S (calls_of c_getGPUs (trace st)).
Proof.
  intros Hg. unfold get_gpu_info. rewrite Hg. run_monad.
  destruct (GPUtil_getGPUs w _) as [[| gpu others] | e]; simpl; count_calls;
    reflexivity.
Qed.

Lemma collect_calls w st c :
  once_per_tick w c = true ->
  calls_of c (trace (snd (collect w st))) = S (calls_of c (trace st)).
Proof.
  intros Hc. unfold collect, bind.
  pose proof (get_ip_address_result w st) as R1.
  pose proof (get_ip_address_frame w st) as F1.
  pose proof (gethostname_called_once w st) as N1.
  destruct (get_ip_address w st) as [o1 st1]; simpl in R1, F1, N1. subst o1.
  pose proof (get_cpu_info_result w st1) as R2.
  pose proof (get_cpu_info_frame w st1) as F2.
  pose proof (cpu_calls_once w st1) as [N2 N2'].
  destruct (get_cpu_info w st1) as [o2 st2]; simpl in R2, F2, N2, N2'.
  subst o2.
  pose proof (get_ram_info_result w st2) as R3.
  pose proof (get_ram_info_frame w st2) as F3.
  pose proof (ram_calls_once w st2) as N3.
  destruct (get_ram_info w st2) as [o3 st3]; simpl in R3, F3, N3. subst o3.
  pose proof (get_gpu_info_result w st3) as R4.
  pose proof (get_gpu_info_frame w st3) as F4.
  pose proof (@gpu_calls_once w st3) as N4.
  destruct (get_gpu_info w st3) as [o4 st4]; simpl in R4, F4, N4. subst o4.
  simpl.
  destruct c; try discriminate; simpl in Hc.
  - rewrite (steps_calls_of c_gethostname F4), (steps_calls_of c_gethostname F3),
      (steps_calls_of c_gethostname F2); simpl; congruence.
  - rewrite (steps_calls_of c_get_cpu_info F4),
      (steps_calls_of c_get_cpu_info F3), N2,
      (steps_calls_of c_get_cpu_info F1); simpl; congruence.
  - rewrite (steps_calls_of c_cpu_percent F4),
      (steps_calls_of c_cpu_percent F3), N2',
      (steps_calls_of c_cpu_percent F1); simpl; congruence.
  - rewrite (steps_calls_of c_virtual_memory F4), N3,
      (steps_calls_of c_virtual_memory F2),
      (steps_calls_of c_virtual_memory F1); simpl; congruence.
  - rewrite (N4 Hc), (steps_calls_of c_getGPUs F3),
      (steps_calls_of c_getGPUs F2), (steps_calls_of c_getGPUs F1);
      simpl; congruence.
Qed.

Lemma publish_events_other_calls evs c :
  Forall publish_event evs -> owner c <> None -> calls_of c evs = 0.
Proof.
  intros F Hc. induction F as [| e evs [f ->] _ IH]; [reflexivity |].
  change (EvCall (c_set f) :: evs) with ([EvCall (c_set f)] ++ evs)%list.
  rewrite calls_of_app, IH.
  destruct c; simpl in *; try reflexivity. congruence.
Qed.

Lemma once_per_tick_owned w c : once_per_tick w c = true -> owner c <> None.
Proof. destruct c; simpl; discriminate. Qed.

Lemma update_info_calls w st c :
  once_per_tick w c = true ->
  calls_of c (trace (snd (update_info w st))) = S (calls_of c (trace st)).
Proof.
  intros Hc. pose proof (@collect_calls w st c Hc) as C.
  destruct (update_info_result w st)
    as (st1 & st' & evs1 & evs2 & E & T1 & _ & U & _ & T & _ & F2 & _).
  rewrite E in C. simpl in C. rewrite U. simpl.
  rewrite T, !app_assoc, <- T1, <- !app_assoc, !calls_of_app, C.
  rewrite (publish_events_other_calls c F2 (once_per_tick_owned w c Hc)).
  destruct (snd (published _ _ _ _ _)); unfold calls_of; simpl; lia.
Qed.

Lemma tick_calls w st c :
  once_per_tick w c = true ->
  calls_of c (trace (snd (tick w st))) = S (calls_of c (trace st)).
Proof.
  intros Hc. unfold tick, bind, try_finally, log. simpl.
  match goal with |- context [update_info w ?s] =>
    pose proof (@update_info_calls w s c Hc) as U;
    destruct (update_info w s) as [[[] | e] st']
  end; simpl in *; rewrite calls_of_app, U, calls_of_app;
    unfold calls_of; simpl; lia.
Qed.

Lemma mainloop_snoc w turns : forall st,
  mainloop w (S turns) st = fire w (mainloop w turns st).
Proof.
  induction turns as [| n IH]; intros st; [reflexivity |].
  change (mainloop w (S (S n)) st) with (mainloop w (S n) (fire w st)).
  rewrite IH. reflexivity.
Qed.

Lemma main_step w turns : main w (S turns) = fire w (main w turns).
Proof. unfold main. apply mainloop_snoc. Qed.

Lemma main_idle w turns : idle (main w turns).
Proof.
  destruct (init_idle w) as [H0 _].
  exact (proj1 (mainloop_idle w turns H0)).
Qed.

Lemma boot_calls w c : calls_of c (trace (boot w)) = 0.
Proof.
  simpl. unfold module_import.
  destruct (import_GPUtil w) as [| [[] m]]; reflexivity.
Qed.

Lemma main_calls w turns c :
  once_per_tick w c = true -> calls_of c (trace (main w turns)) = S turns.
Proof.
  intros Hc. induction turns as [| n IH].
  - unfold main, mainloop, SystemMonitorApp_init, bind.
    rewrite (tick_calls _ _ c Hc). cbn [trace]. now rewrite boot_calls.
  - rewrite main_step. pose proof (main_idle w n) as [Ht _].
    unfold fire. rewrite Ht. rewrite (tick_calls _ _ c Hc).
    cbn [trace]. now rewrite IH.
Qed.

(** Every tick asks each sensor library anew: after the constructor and
    [turns] timer callbacks, [gethostname], [cpuinfo.get_cpu_info],
    [psutil.cpu_percent] and [psutil.virtual_memory] (and
    [GPUtil.getGPUs] when the library was imported) have each been called
    exactly [turns + 1] times; in particular the CPU name is looked up
    again in every tick, it is not cached. *)
Theorem libraries_called_every_tick (w : World) (turns : nat) (c : call) :
  once_per_tick w c = true ->
  calls_of c (trace (main w turns)) = S turns.
Proof. apply main_calls. Qed.

Lemma libraries_called_every_tick_witness :
  once_per_tick nominal c_get_cpu_info = true /\
  calls_of c_get_cpu_info (trace (main nominal 3)) = 4.
Proof.
  split; [reflexivity |].
  exact (@libraries_called_every_tick nominal 3 c_get_cpu_info eq_refl).
Defined.

Lemma tick_vars w st :
  sets_succeed w ->
  vars (snd (tick w st)) = display_of (snapshot_reading w (trace st)).
Proof.
  intros Hs.
  destruct (tick_result w st) as (st' & evs & E & V & _).
  rewrite E. cbn [snd]. rewrite V.
  rewrite (published_completes w (trace st) _ publish_order (vars st))
    by (intros; apply Hs).
  cbn [fst]. apply apply_sets_all.
Qed.

Lemma main_vars w n :
  sets_succeed w ->
  vars (main w n) = display_of (snapshot_reading w (tick_start w n)).
Proof.
  intros Hs. destruct n as [| k].
  - unfold main, mainloop, SystemMonitorApp_init, bind. cbn [snd fst].
    rewrite (tick_vars _ Hs). reflexivity.
  - rewrite main_step. pose proof (main_idle w k) as [Ht _].
    unfold fire. rewrite Ht. rewrite (tick_vars _ Hs). reflexivity.
Qed.

Lemma tick_start_calls w n c :
  once_per_tick w c = true -> calls_of c (tick_start w n) = n.
Proof.
  intros Hc. destruct n as [| k]; simpl tick_start.
  - apply boot_calls.
  - now apply main_calls.
Qed.

(** The display shows the latest sample.  When no [set] fails, after the
    constructor and [n] timer callbacks each CPU, memory and GPU variable
    holds what the answer number [n] (counting from 0) of its library gives:
    the value, rendered, when the call returned, and the sentinel when it
    raised; nothing of an earlier tick survives, not even a good value
    after a failed sample. *)
Theorem display_is_latest_sample (w : World) (n : nat) :
  sets_succeed w ->
  let d := vars (main w n) in
  cpu_name_var d =
    match cpuinfo_get_cpu_info w n with
    | Ret info => dict_get info "brand_raw" "N/A"
    | Raise _ => "N/A (Error getting name)"
    end /\
  cpu_usage_var d =
    match psutil_cpu_percent w n with
    | Ret p => format_f 1 p ++ "%"
    | Raise _ => "N/A"
    end /\
  ram_total_var d =
    match psutil_virtual_memory w n with
    | Ret memory =>
        match int_truediv_2p30 (total memory) with
        | Some total_ram_gb => format_f 2 total_ram_gb ++ " GB"
        | None => "N/A"
        end
    | Raise _ => "N/A"
    end /\
  ram_usage_var d =
    match psutil_virtual_memory w n with
    | Ret memory =>
        match int_truediv_2p30 (total memory) with
        | Some _ => format_f 1 (percent memory) ++ "%"
        | None => "N/A"
        end
    | Raise _ => "N/A"
    end /\
  (gpus_available w = true ->
   (gpu_name_var d, gpu_usage_var d) =
     match GPUtil_getGPUs w n with
     | Ret [] => ("N/A (No supported GPU found)", "N/A")
     | Ret (gpu :: _) => (name gpu, format_f 1 (load gpu * 100) ++ "%")
     | Raise _ => ("N/A (Error querying GPU)", "N/A")
     end).
Proof.
  intros Hs d. subst d. rewrite (main_vars n Hs).
  unfold display_of, rendered, snapshot_reading.
  cbn [cpu_name_var cpu_usage_var ram_total_var ram_usage_var gpu_name_var
       gpu_usage_var cpu_name cpu_usage ram_total ram_usage gpu_name gpu_usage].
  unfold cpu_name_reading, cpu_usage_reading, ram_reading, ram_attempt,
    gpu_reading.
  rewrite !(tick_start_calls w n) by reflexivity.
  repeat split.
  - destruct (psutil_cpu_percent w n); reflexivity.
  - destruct (psutil_virtual_memory w n) as [memory |]; [| reflexivity].
    destruct (int_truediv_2p30 (total memory)); reflexivity.
  - destruct (psutil_virtual_memory w n) as [memory |]; [| reflexivity].
    destruct (int_truediv_2p30 (total memory)); reflexivity.
  - intros Hg. rewrite Hg.
    rewrite (tick_start_calls w n c_getGPUs) by (simpl; exact Hg).
    destruct (GPUtil_getGPUs w n) as [[| gpu others] |]; reflexivity.
Qed.

Lemma display_is_latest_sample_witness :
  sets_succeed warming_up /\
  cpu_usage_var (vars (main warming_up 0)) = "42.4%" /\
  cpu_usage_var (vars (main warming_up 1)) = "50.0%".
Proof.
  assert (H : sets_succeed warming_up) by (intros f k; reflexivity).
  split; [exact H |]. split.
  - destruct (@display_is_latest_sample warming_up 0 H) as (_ & E & _).
    rewrite E. reflexivity.
  - destruct (@display_is_latest_sample warming_up 1 H) as (_ & E & _).
    rewrite E. reflexivity.
Defined.

(** ** The cadence of the loop *)

Lemma fire_now w st : idle st -> now st + 1000 <= now (fire w st).
Proof.
  intros [Ht _]. unfold fire. rewrite Ht. cbn [earliest remove_first].
  match goal with |- context [tick w ?s] =>
    destruct (tick_result w s) as (st' & evs & E & _ & _ & _ & _ & N);
    rewrite E
  end.
  cbn [snd now] in *. lia.
Qed.

(** The loop refreshes at most once per second: the timer callback number
    [n] ends no earlier than [1000 * n] ms after the start, and each tick
    ends at least 1000 ms after the one before, however fast the sensors
    answer; a slow tick is not caught up. *)
Theorem refresh_rate_bounded (w : World) (n : nat) :
  1000 * n <= now (main w n) /\
  now (main w n) + 1000 <= now (main w (S n)).
Proof.
  assert (Step : forall k, now (main w k) + 1000 <= now (main w (S k))).
  { intros k. rewrite main_step. apply fire_now, main_idle. }
  split; [| apply Step].
  induction n as [| k IH]; [lia |].
  specialize (Step k). lia.
Qed.

(** ** Start-up without GPUtil (lines 10-20) *)

(** A failed import of GPUtil, of whatever class, only disables the GPU
    sensor.  Two lines are logged at start-up (the install hint for an
    [ImportError], the message of the exception otherwise); the
    application still runs every tick and samples the CPU in each; GPUtil
    is never called; and, when no [set] fails, the GPU variables show the
    unavailable pair after every tick. *)
Theorem import_failure_only_disables_gpu (w : World) (e : exn) (n : nat) :
  import_GPUtil w = Raise e ->
  sets_succeed w ->
  prints_of (trace (boot w)) =
    match exn_cls e with
    | ImportError =>
        ["GPUtil library not found. GPU information will not be available.";
         "Install it using: pip install GPUtil"]
    | _ =>
        [("An error occurred importing GPUtil: " ++ exn_msg e)%string;
         "GPU information might not be available."]
    end /\
  calls_of c_cpu_percent (trace (main w n)) = S n /\
  calls_of c_getGPUs (trace (main w n)) = 0 /\
  gpu_name_var (vars (main w n)) = "N/A (GPUtil unavailable)" /\
  gpu_usage_var (vars (main w n)) = "N/A".
Proof.
  intros Hi Hs.
  assert (Hg : gpus_available w = false).
  { unfold gpus_available, module_import. rewrite Hi.
    destruct (exn_cls e); reflexivity. }
  split.
  { simpl. unfold module_import. rewrite Hi.
    destruct (exn_cls e); reflexivity. }
  split; [now apply main_calls |].
  split; [now apply main_without_gpu |].
  rewrite (main_vars n Hs).
  unfold display_of, rendered, snapshot_reading, gpu_reading.
  rewrite Hg. split; reflexivity.
Qed.

Lemma import_failure_only_disables_gpu_witness :
  import_GPUtil gpu_absent =
    Raise (mkExn ImportError "No module named 'GPUtil'") /\
  sets_succeed gpu_absent /\
  calls_of c_cpu_percent (trace (main gpu_absent 2)) = 3 /\
  gpu_name_var (vars (main gpu_absent 2)) = "N/A (GPUtil unavailable)".
Proof.
  assert (H : sets_succeed gpu_absent) by (intros f k; reflexivity).
  split; [reflexivity |]. split; [exact H |].
  destruct (@import_failure_only_disables_gpu gpu_absent
              (mkExn ImportError "No module named 'GPUtil'") 2 eq_refl H)
    as (_ & C & _ & G & _).
  split; [exact C | exact G].
Defined.

(** ** Publication after a failed [set] (lines 171-180) *)

Lemma set_counter_after_set (tr : list event) (f g : field) :
  calls_of (c_set g) (tr ++ [EvCall (c_set f)]) =
  calls_of (c_set g) tr + (if field_eqb g f then 1 else 0).
Proof.
  rewrite calls_of_app. unfold calls_of at 2. simpl.
  destruct (field_eqb g f); reflexivity.
Qed.

Lemma field_eqb_neq (f g : field) : f <> g -> field_eqb f g = false.
Proof.
  intros H. destruct (field_eqb f g) eqn:E; auto.
  apply field_eqb_eq in E. contradiction.
Qed.

(** The [set] calls made by [publish_fields] when the [set] of [f] raises
    after those of [done]: one for each field of [done] and for [f], none
    for any other field. *)
Lemma publish_fields_calls w s f rest e : forall done st,
  NoDup (done ++ f :: rest) ->
  (forall g, In g done ->
     returned (StringVar_set w g (calls_of (c_set g) (trace st))) = true) ->
  StringVar_set w f (calls_of (c_set f) (trace st)) = Raise e ->
  let st' := snd (publish_fields w s (done ++ f :: rest) st) in
  (forall g, In g done \/ g = f ->
     calls_of (c_set g) (trace st') = S (calls_of (c_set g) (trace st))) /\
  (forall g, ~ (In g done \/ g = f) ->
     calls_of (c_set g) (trace st') = calls_of (c_set g) (trace st)).
Proof.
  induction done as [| d done IH]; intros st ND Hok Hf.
  - cbn [app publish_fields]. unfold bind, StringVar_set_call. rewrite Hf.
    cbn [snd trace]. split; intros g Hg; rewrite set_counter_after_set.
    + destruct Hg as [[] | ->]. rewrite field_eqb_refl. lia.
    + rewrite field_eqb_neq; [lia |]. intros ->. apply Hg. now right.
  - cbn [app publish_fields]. unfold bind, StringVar_set_call.
    pose proof (Hok d (or_introl eq_refl)) as Hd.
    destruct (StringVar_set w d (calls_of (c_set d) (trace st))) as [[] | e'];
      [| discriminate].
    cbn [app] in ND. inversion ND as [| ? ? Hnin ND']; subst.
    match goal with |- context [publish_fields w s _ ?st1] =>
      specialize (IH st1 ND')
    end.
    cbv zeta in IH. cbn [trace] in IH. cbv beta iota zeta.
    assert (Hne : forall g, In g (done ++ f :: rest) -> field_eqb g d = false).
    { intros g Hg. apply field_eqb_neq. intros ->. contradiction. }
    destruct IH as [IH1 IH2].
    + intros g Hg. rewrite set_counter_after_set, Hne, Nat.add_0_r.
      * apply Hok. now right.
      * apply in_or_app. now left.
    + rewrite set_counter_after_set, Hne, Nat.add_0_r; [exact Hf |].
      apply in_or_app. right. now left.
    + split; intros g Hg.
      * destruct (field_eqb g d) eqn:Egd.
        -- apply field_eqb_eq in Egd. subst g.
           rewrite IH2, set_counter_after_set, field_eqb_refl; [lia |].
           intros [Hin | ->]; apply Hnin, in_or_app; [now left | right; now left].
        -- rewrite IH1, set_counter_after_set, Egd; [lia |].
           destruct Hg as [[-> | Hin] | ->]; auto.
           rewrite field_eqb_refl in Egd. discriminate.
      * rewrite IH2, set_counter_after_set, field_eqb_neq; [lia | |].
        -- intros ->. apply Hg. left. now left.
        -- intros [Hin | ->]; apply Hg; [left; now right | now right].
Qed.

(** A [set] that raises ends the publication of the tick: the [set]s of
    the fields before it and its own were called once, those of the fields
    after it were not called at all, so a later variable is not even asked
    to change. *)
Theorem failed_set_ends_publication (w : World) (st : St)
    (done rest : list field) (f : field) (e : exn) :
  publish_order = (done ++ f :: rest)%list ->
  (forall g, In g done -> returned (set_answer w (trace st) g) = true) ->
  set_answer w (trace st) f = Raise e ->
  let st' := snd (update_info w st) in
  (forall g, In g done \/ g = f ->
     calls_of (c_set g) (trace st') = S (calls_of (c_set g) (trace st))) /\
  (forall g, In g rest ->
     calls_of (c_set g) (trace st') = calls_of (c_set g) (trace st)).
Proof.
  intros Hsplit Hdone Hf st'. subst st'.
  pose proof publish_order_NoDup as ND. rewrite Hsplit in ND.
  unfold update_info, sample_and_publish, publish.
  destruct (collect_result w st) as (st1 & C & S1).
  pose proof (fun g => @sampling_keeps_set_counters st st1 g S1) as K.
  unfold bind, try_except. rewrite C. cbv beta iota. rewrite Hsplit.
  destruct (@publish_fields_calls w (snapshot_reading w (trace st)) f rest e
              done st1 ND) as [P1 P2].
  { intros g Hg. rewrite K. now apply Hdone. }
  { rewrite K. exact Hf. }
  destruct (publish_fields w (snapshot_reading w (trace st))
              (done ++ f :: rest) st1) as [[[] | e0] st2];
    cbn [snd] in P1, P2;
    unfold print, log, after; cbn [snd trace];
    (split; intros g Hg; rewrite ?calls_of_app;
     [ rewrite P1, K by exact Hg; unfold calls_of; simpl; lia
     | rewrite P2, K; [unfold calls_of; simpl; lia |];
       intros [Hin | ->];
       [ apply (@NoDup_app_disjoint _ done (f :: rest) g ND Hin); now right
       | apply NoDup_remove_2 in ND; apply ND, in_or_app; now right ] ]).
Qed.

Lemma failed_set_ends_publication_witness :
  let st := main set_faulty 0 in
  let st' := snd (update_info set_faulty st) in
  calls_of (c_set F_cpu_usage) (trace st') = 2 /\
  calls_of (c_set F_ram_total) (trace st') = 2 /\
  calls_of (c_set F_gpu_name) (trace st') = 1.
Proof.
  intros st st'. subst st'.
  destruct (@failed_set_ends_publication set_faulty st
              [F_ip; F_cpu_name; F_cpu_usage]
              [F_ram_usage; F_gpu_name; F_gpu_usage] F_ram_total
              (mkExn Exception "invalid command name")) as [A B].
  - reflexivity.
  - intros g [<- | [<- | [<- | []]]]; vm_compute; reflexivity.
  - vm_compute; reflexivity.
  - split; [| split].
    + rewrite (A F_cpu_usage) by (left; simpl; tauto). vm_compute; reflexivity.
    + rewrite (A F_ram_total) by (now right). vm_compute; reflexivity.
    + rewrite (B F_gpu_name) by (simpl; tauto). vm_compute; reflexivity.
Defined.

(** * C1: isolation of the sensors *)

(** C1.  Sampling never raises and is never cut short, whatever the
    libraries do: every sensor calls its library in the tick, and the
    snapshot gives a sensor whose own calls return their answers, whatever
    the other sensors do.  If two worlds differ only in the answers given
    to one sensor [x] (in one of them [x] fails, in the other it succeeds),
    the snapshots of the same tick agree on every field that does not
    belong to [x]; and a field whose sensor caught an exception holds an
    [N/A] sentinel. *)
Theorem sensor_isolation (x : sensor) (w1 w2 : World) (st : St) :
  same_answers_except x w1 w2 ->
  exists s1 s2 st1 st2,
    collect w1 st = (Ret s1, st1) /\
    collect w2 st = (Ret s2, st2) /\
    s1 = snapshot_reading w1 (trace st) /\
    s2 = snapshot_reading w2 (trace st) /\
    (forall c, once_per_tick w1 c = true ->
               calls_of c (trace st1) = S (calls_of c (trace st))) /\
    own_readings w1 (trace st) s1 /\
    (forall f, field_owner f <> x -> field_value s1 f = field_value s2 f) /\
    (forall f, field_fails w1 (trace st) f ->
               unavailable (field_value s1 f) = true).
Proof.
  intros Hsame.
  destruct (collect_result w1 st) as (st1 & E1 & _).
  destruct (collect_result w2 st) as (st2 & E2 & _).
  exists (snapshot_reading w1 (trace st)), (snapshot_reading w2 (trace st)),
    st1, st2.
  split; [exact E1 |]. split; [exact E2 |].
  split; [reflexivity |]. split; [reflexivity |]. split.
  { intros c Hc. pose proof (collect_calls w1 st c Hc) as K.
    rewrite E1 in K. exact K. }
  split; [apply own_readings_holds |]. split.
  - intros f Hf. apply field_value_same. now apply Hsame.
  - intros f. apply failure_is_unavailable.
Qed.

Lemma sensor_isolation_witness :
  same_answers_except Gpu gpu_faulty nominal /\
  exists s1 s2 st1 st2,
    collect gpu_faulty (boot gpu_faulty) = (Ret s1, st1) /\
    collect nominal (boot gpu_faulty) = (Ret s2, st2) /\
    s1 = snapshot_reading gpu_faulty (trace (boot gpu_faulty)) /\
    s2 = snapshot_reading nominal (trace (boot gpu_faulty)) /\
    (forall c, once_per_tick gpu_faulty c = true ->
               calls_of c (trace st1) = S (calls_of c (trace (boot gpu_faulty)))) /\
    own_readings gpu_faulty (trace (boot gpu_faulty)) s1 /\
    (forall f, field_owner f <> Gpu -> field_value s1 f = field_value s2 f) /\
    (forall f, field_fails gpu_faulty (trace (boot gpu_faulty)) f ->
               unavailable (field_value s1 f) = true).
Proof.
  assert (H : same_answers_except Gpu gpu_faulty nominal).
  { intros y Hy. destruct y; simpl; intuition congruence. }
  split; [exact H |].
  exact (sensor_isolation (boot gpu_faulty) H).
Defined.
